(** * Gap / VWAP analysis scripts: a shallow embedding

    The scripts under [backend/] and [backend/tmp/] compute a gap percentage,
    a running VWAP with an ABOVE/BELOW classification, and aggregate
    statistics over persisted trade records.

    Conventions of the embedding:
    - Python numbers are exact rationals ([Q]); equality of numbers is [Qeq]
      ([==]).  Rounding of binary floating point is outside the model.
    - A Python exception is a value of [PyError]; code that can raise lives
      in the [result] monad.
    - [list] is a Python list; a [dict] that is iterated is an association
      list in insertion order. *)

From Stdlib Require Import QArith Qabs Qround ZArith List String Ascii Bool.
From Stdlib Require Import Lia Lqa Permutation Sorted.
Import ListNotations.
Open Scope Q_scope.

(** ** Exceptions and the error monad *)

Inductive PyError : Set :=
| ZeroDivisionError
| ValueError
| IndexError
| JSONDecodeError.

Inductive result (A : Type) : Type :=
| Ok (a : A)
| Raise (e : PyError).
Arguments Ok {A} a.
Arguments Raise {A} e.

Definition bind {A B : Type} (r : result A) (k : A -> result B) : result B :=
  match r with
  | Ok a => k a
  | Raise e => Raise e
  end.

Notation "x <- r ;; k" := (bind r (fun x => k))
  (at level 61, r at next level, right associativity).

(** ** Numbers *)

(** [x > y] on Python numbers. *)
Definition Qgt_bool (x y : Q) : bool := negb (Qle_bool x y).

(** [x < y]. *)
Definition Qlt_bool (x y : Q) : bool := Qgt_bool y x.

(** [x / y]: true division, raising on a zero divisor. *)
Definition pydiv (x y : Q) : result Q :=
  if Qeq_bool y 0 then Raise ZeroDivisionError else Ok (x / y).

(** [len(l)] as a number. *)
Definition len {A : Type} (l : list A) : Q := inject_Z (Z.of_nat (List.length l)).

(** [sum(l)]. *)
Definition sum (l : list Q) : Q := fold_left Qplus l 0.

(** ** Bars and the running VWAP (analyze-qqq.py, debug-mpwr.py) *)

Record Bar : Set := mkBar {
  time : string;
  open : Q;
  high : Q;
  low : Q;
  close : Q;
  volume : Q
}.

Record VwapState : Set := mkVwap {
  cumVol : Q;
  cumVolPrice : Q
}.

Inductive Relation : Set := ABOVE | BELOW.

(** [cumVol = 0; cumVolPrice = 0] *)
Definition vwap_init : VwapState := mkVwap 0 0.

(** [typical = (high + low + close) / 3] *)
Definition typical (b : Bar) : Q := (high b + low b + close b) / 3.

(** [cumVolPrice += typical * volume; cumVol += volume] *)
Definition observe (st : VwapState) (b : Bar) : VwapState :=
  mkVwap (cumVol st + volume b) (cumVolPrice st + typical b * volume b).

(** [vwap = cumVolPrice / cumVol if cumVol > 0 else 0] *)
Definition vwap (st : VwapState) : result Q :=
  if Qgt_bool (cumVol st) 0 then pydiv (cumVolPrice st) (cumVol st) else Ok 0.

(** ["ABOVE" if close > vwap else "BELOW"] *)
Definition relation (c v : Q) : Relation :=
  if Qgt_bool c v then ABOVE else BELOW.

(** One iteration of the loop: the state after the bar and the printed
    pair (VWAP, relation). *)
Definition vwap_step (st : VwapState) (b : Bar)
  : result (VwapState * (Q * Relation)) :=
  let st' := observe st b in
  v <- vwap st' ;;
  Ok (st', (v, relation (close b) v)).

(** The whole loop from a given state: one printed row per bar. *)
Fixpoint vwap_rows (st : VwapState) (bars : list Bar)
  : result (list (Q * Relation)) :=
  match bars with
  | [] => Ok []
  | b :: rest =>
      r <- vwap_step st b ;;
      rows <- vwap_rows (fst r) rest ;;
      Ok (snd r :: rows)
  end.

(** The running sums after a whole sequence. *)
Definition observe_all (st : VwapState) (bars : list Bar) : VwapState :=
  fold_left observe bars st.

(** Typical price times volume, the term added to [cumVolPrice]. *)
Definition tpv (b : Bar) : Q := typical b * volume b.

(** The specification's reading of the guard: no VWAP, and no
    classification, while the cumulative volume is not positive. *)
Definition vwap_spec (st : VwapState) : option Q :=
  if Qgt_bool (cumVol st) 0 then Some (cumVolPrice st / cumVol st) else None.

Definition classification_spec (st : VwapState) (b : Bar) : option Relation :=
  option_map (relation (close b)) (vwap_spec st).

(** ** Gap percentage (analyze-qqq.py, check-data-quality.py) *)

(** [gap_pct = ((first_open - prev_close) / prev_close) * 100] *)
Definition gap_pct (prev_close first_open : Q) : result Q :=
  q <- pydiv (first_open - prev_close) prev_close ;;
  Ok (q * 100).

(** [gap_pct <= -1.0]: the script's down-gap test. *)
Definition meets_threshold (g : Q) : bool := Qle_bool g (-1).

(** SQLite's [ROUND(x, 2)]: nearest hundredth, halves away from zero. *)
Definition sql_round2 (x : Q) : Q :=
  if Qle_bool 0 x
  then inject_Z (Qfloor (x * 100 + (1 # 2))) / 100
  else - (inject_Z (Qfloor (- x * 100 + (1 # 2))) / 100).

(** The [gap_pct] column of check-data-quality.py, for a row the query
    selects; SQLite yields NULL for a division by zero. *)
Definition sql_gap_pct (last_close first_open : Q) : option Q :=
  if Qeq_bool last_close 0 then None
  else Some (sql_round2 ((first_open - last_close) / last_close * 100)).

Inductive Direction : Set := Up | Down.

Definition Direction_eqb (a b : Direction) : bool :=
  match a, b with
  | Up, Up | Down, Down => true
  | _, _ => false
  end.

(** The sign of a gap as a direction. *)
Definition gap_direction (g : Q) : Direction :=
  if Qlt_bool g 0 then Down else Up.

(** The rule in the specification's words: the magnitude reaches the
    configured minimum and the direction is the configured one. *)
Definition meets_threshold_spec (dir : Direction) (min_gap g : Q) : bool :=
  Qle_bool min_gap (Qabs g) && Direction_eqb (gap_direction g) dir.

(** The configuration analyze-qqq.py hard-codes. *)
Definition MIN_GAP_PERCENT : Q := 1.
Definition configured_direction : Direction := Down.

(** ** Trade records and the metrics (backend/tmp/analyze-*.py,
    compare-all-strategies.py) *)

(** A decoded trade record.  [None] in [pnlPercent] or [entryTime] is a
    key that is missing or [null]: [t.get(k)] is [None] in both cases. *)
Record Trade : Set := mkTrade {
  ticker : string;
  date : string;
  entryTime : option string;
  exitReason : string;
  pnlPercent : option Q;
  validationErrors : list string
}.

(** [t.get('pnlPercent') is not None] *)
Definition closed (t : Trade) : bool :=
  match pnlPercent t with Some _ => true | None => false end.

(** [t['pnlPercent']]; the scripts read it on members of [trades] only,
    where it is not [None] (lemma [trades_of_closed]). *)
Definition pnl (t : Trade) : Q :=
  match pnlPercent t with Some p => p | None => 0 end.

(** [trades = [t for t in data if t.get('pnlPercent') is not None]] *)
Definition trades_of (data : list Trade) : list Trade := filter closed data.

(** [winners = [t for t in trades if t['pnlPercent'] > 0]] *)
Definition winners (trades : list Trade) : list Trade :=
  filter (fun t => Qgt_bool (pnl t) 0) trades.

(** [losers = [t for t in trades if t['pnlPercent'] < 0]] *)
Definition losers (trades : list Trade) : list Trade :=
  filter (fun t => Qlt_bool (pnl t) 0) trades.

(** The trades that are neither: no script names this list. *)
Definition zero_pnl (trades : list Trade) : list Trade :=
  filter (fun t => Qeq_bool (pnl t) 0) trades.

(** [sum(t['pnlPercent'] for t in l)] *)
Definition sum_pnl (l : list Trade) : Q := sum (map pnl l).

(** [sum(t['pnlPercent'] for t in l) / len(l) if l else 0] *)
Definition mean_or_zero (l : list Trade) : result Q :=
  match l with
  | [] => Ok 0
  | _ :: _ => pydiv (sum_pnl l) (len l)
  end.

(** [gross_profit = sum(t['pnlPercent'] for t in winners)] *)
Definition gross_profit (trades : list Trade) : Q := sum_pnl (winners trades).

(** [gross_loss = abs(sum(t['pnlPercent'] for t in losers))] *)
Definition gross_loss (trades : list Trade) : Q :=
  Qabs (sum_pnl (losers trades)).

(** [profit_factor = gross_profit / gross_loss if gross_loss > 0 else 0] *)
Definition profit_factor (trades : list Trade) : result Q :=
  if Qgt_bool (gross_loss trades) 0
  then pydiv (gross_profit trades) (gross_loss trades)
  else Ok 0.

(** *** Grouping: [defaultdict(list)] in insertion order *)

Definition dict : Set := list (string * list Q).

(** [d[k].append(v)] *)
Fixpoint dict_append (k : string) (v : Q) (d : dict) : dict :=
  match d with
  | [] => [(k, [v])]
  | (k', vs) :: rest =>
      if String.eqb k k' then (k', vs ++ [v]) :: rest
      else (k', vs) :: dict_append k v rest
  end.

(** [d[k]] for a key known to be present; [k in d] is [Some]. *)
Fixpoint dict_get (k : string) (d : dict) : option (list Q) :=
  match d with
  | [] => None
  | (k', vs) :: rest => if String.eqb k k' then Some vs else dict_get k rest
  end.

(** [for t in trades: by_reason[t['exitReason']].append(t['pnlPercent'])] *)
Definition by_reason (trades : list Trade) : dict :=
  fold_left (fun d t => dict_append (exitReason t) (pnl t) d) trades [].

(** [sorted(d.items(), key=lambda x: -len(x[1]))]: a stable sort, larger
    groups first. *)
Fixpoint insert_by_size (x : string * list Q) (l : dict) : dict :=
  match l with
  | [] => [x]
  | y :: rest =>
      if (List.length (snd y) <=? List.length (snd x))%nat then x :: l
      else y :: insert_by_size x rest
  end.

Definition sorted_by_size (d : dict) : dict := fold_right insert_by_size [] d.

(** A printed group: its key, [len(pnls)] and [sum(pnls) / len(pnls)]. *)
Record GroupRow : Set := mkRow {
  row_key : string;
  row_count : nat;
  row_avg : Q
}.

Definition reason_row (kv : string * list Q) : result GroupRow :=
  avg <- pydiv (sum (snd kv)) (len (snd kv)) ;;
  Ok (mkRow (fst kv) (List.length (snd kv)) avg).

(** A loop whose body can raise. *)
Fixpoint for_each {A B : Type} (f : A -> result B) (l : list A)
  : result (list B) :=
  match l with
  | [] => Ok []
  | a :: rest =>
      b <- f a ;;
      bs <- for_each f rest ;;
      Ok (b :: bs)
  end.

(** The "Exit Reasons" block. *)
Definition reason_rows (trades : list Trade) : result (list GroupRow) :=
  for_each reason_row (sorted_by_size (by_reason trades)).

(** *** Strings: [strip], [split(':')[0]], [int] *)

Definition chars (s : string) : list ascii := list_ascii_of_string s.

(** Python's ASCII whitespace. *)
Definition is_space (c : ascii) : bool :=
  let n := nat_of_ascii c in
  ((9 <=? n) && (n <=? 13) || (28 <=? n) && (n <=? 32))%nat.

Fixpoint lstrip (cs : list ascii) : list ascii :=
  match cs with
  | c :: rest => if is_space c then lstrip rest else cs
  | [] => []
  end.

(** [s.strip()] *)
Definition strip (cs : list ascii) : list ascii :=
  rev (lstrip (rev (lstrip cs))).

(** [s.split(sep)[0]] *)
Fixpoint split_first (sep : ascii) (cs : list ascii) : list ascii :=
  match cs with
  | [] => []
  | c :: rest => if Ascii.eqb c sep then [] else c :: split_first sep rest
  end.

Definition is_digit (c : ascii) : bool :=
  let n := nat_of_ascii c in ((48 <=? n) && (n <=? 57))%nat.

Definition digit_value (c : ascii) : Z := Z.of_nat (nat_of_ascii c - 48).

(** Decimal digits with single underscores between digits. *)
Fixpoint digits_value (acc : Z) (after_digit : bool) (cs : list ascii)
  : option Z :=
  match cs with
  | [] => if after_digit then Some acc else None
  | c :: rest =>
      if is_digit c then digits_value (acc * 10 + digit_value c) true rest
      else if Ascii.eqb c "_" && after_digit then digits_value acc false rest
      else None
  end.

(** The whitespace [int] skips around an ASCII literal: tab to carriage
    return and the space, not the separators 28 to 31 that [str.strip]
    also removes. *)
Definition is_int_space (c : ascii) : bool :=
  let n := nat_of_ascii c in
  ((9 <=? n) && (n <=? 13) || (n =? 32))%nat.

Fixpoint int_lstrip (cs : list ascii) : list ascii :=
  match cs with
  | c :: rest => if is_int_space c then int_lstrip rest else cs
  | [] => []
  end.

Definition int_strip (cs : list ascii) : list ascii :=
  rev (int_lstrip (rev (int_lstrip cs))).

(** [int(s)] on an ASCII string: surrounding whitespace, an optional sign,
    decimal digits. *)
Definition py_int (cs : list ascii) : result Z :=
  let body := int_strip cs in
  let signed :=
    match body with
    | c :: rest =>
        if Ascii.eqb c "-" then option_map Z.opp (digits_value 0 false rest)
        else if Ascii.eqb c "+" then digits_value 0 false rest
        else digits_value 0 false body
    | [] => None
    end in
  match signed with
  | Some z => Ok z
  | None => Raise ValueError
  end.

(** *** Entry-time buckets (analyze-orb-validated.py) *)

(** The [if hour == 9: ... else: bucket = '13:00+'] chain. *)
Definition bucket_of_hour (hour : Z) : string :=
  if (hour =? 9)%Z then "09:30-10:00"%string
  else if (hour =? 10)%Z then "10:00-11:00"%string
  else if (hour =? 11)%Z then "11:00-12:00"%string
  else if (hour =? 12)%Z then "12:00-13:00"%string
  else "13:00+"%string.

(** [hour = int(entry_time.split(':')[0])] *)
Definition hour_of (entry_time : string) : result Z :=
  py_int (split_first ":" (chars entry_time)).

(** The body of the timing loop for one trade: [None] when the trade is
    left out ([entry_time] is falsy), else its bucket. *)
Definition timing_bucket (t : Trade) : result (option string) :=
  match entryTime t with
  | None => Ok None
  | Some EmptyString => Ok None
  | Some entry_time =>
      hour <- hour_of entry_time ;;
      Ok (Some (bucket_of_hour hour))
  end.

(** [by_timing]: the loop over [trades], stopping at the first exception. *)
Fixpoint by_timing_from (d : dict) (trades : list Trade) : result dict :=
  match trades with
  | [] => Ok d
  | t :: rest =>
      b <- timing_bucket t ;;
      match b with
      | Some bucket => by_timing_from (dict_append bucket (pnl t) d) rest
      | None => by_timing_from d rest
      end
  end.

Definition by_timing (trades : list Trade) : result dict :=
  by_timing_from [] trades.

(** The bucket list of the printing loop. *)
Definition BUCKETS : list string :=
  ["09:30-10:00"; "10:00-11:00"; "11:00-12:00"; "12:00-13:00"; "13:00+"]%string.

(** A printed bucket: count, mean and share of winners in percent. *)
Record TimingRow : Set := mkTimingRow {
  t_bucket : string;
  t_count : nat;
  t_avg : Q;
  t_winners_pct : Q
}.

(** [for bucket in [...]: if bucket in by_timing: ...] *)
Fixpoint timing_rows_from (buckets : list string) (d : dict)
  : result (list TimingRow) :=
  match buckets with
  | [] => Ok []
  | bucket :: rest =>
      match dict_get bucket d with
      | Some pnls =>
          avg <- pydiv (sum pnls) (len pnls) ;;
          wf <- pydiv (len (filter (fun p => Qgt_bool p 0) pnls)) (len pnls) ;;
          rows <- timing_rows_from rest d ;;
          Ok (mkTimingRow bucket (List.length pnls) avg (wf * 100) :: rows)
      | None => timing_rows_from rest d
      end
  end.

(** The "Entry Time Analysis" block. *)
Definition timing_rows (trades : list Trade) : result (list TimingRow) :=
  d <- by_timing trades ;;
  timing_rows_from BUCKETS d.

(** *** The reports *)

(** What analyze-orb.py prints before its top-5 lists (analyze-orb-fixed.py
    and analyze-short-results.py compute the same values in the same
    order). *)
Record Report : Set := mkReport {
  total_trades : nat;
  n_winners : nat;
  winners_pct : Q;
  n_losers : nat;
  losers_pct : Q;
  avg_win : Q;
  avg_loss : Q;
  avg_pnl : Q;
  total_pnl : Q;
  report_profit_factor : Q;
  exit_reasons : list GroupRow
}.

Definition analyze_orb (data : list Trade) : result Report :=
  let trades := trades_of data in
  wf <- pydiv (len (winners trades)) (len trades) ;;
  lf <- pydiv (len (losers trades)) (len trades) ;;
  aw <- mean_or_zero (winners trades) ;;
  al <- mean_or_zero (losers trades) ;;
  ap <- pydiv (sum_pnl trades) (len trades) ;;
  pf <- profit_factor trades ;;
  rows <- reason_rows trades ;;
  Ok (mkReport (List.length trades)
        (List.length (winners trades)) (wf * 100)
        (List.length (losers trades)) (lf * 100)
        aw al ap (sum_pnl trades) pf rows).

(** analyze-orb-validated.py through its "Entry Time Analysis" block
    (lines 13 to 87): the same values, then the timing block.  The blocks
    after it (top-five lists, MU check) read further keys of the raw
    records, such as [t['entryTime']], and are not part of this value. *)
Record ValidatedReport : Set := mkValidated {
  total_signals : nat;
  n_with_errors : nat;
  base : Report;
  entry_times : list TimingRow
}.

(** [errors = [t for t in trades if t.get('validationErrors')]] *)
Definition with_errors (trades : list Trade) : list Trade :=
  filter (fun t => match validationErrors t with [] => false | _ => true end)
    trades.

Definition analyze_orb_validated (data : list Trade)
  : result ValidatedReport :=
  r <- analyze_orb data ;;
  rows <- timing_rows (trades_of data) ;;
  Ok (mkValidated (List.length data)
        (List.length (with_errors (trades_of data))) r rows).

(** One strategy of compare-all-strategies.py. *)
Record StrategyMetrics : Set := mkMetrics {
  m_trades : nat;
  m_win_rate : Q;
  m_expectancy : Q;
  m_avg_win : Q;
  m_avg_loss : Q;
  m_profit_factor : Q;
  m_total_pnl : Q
}.

Inductive StrategyOutcome : Set :=
| NoTradesExecuted
| Metrics (m : StrategyMetrics).

Definition compare_strategy (data : list Trade) : result StrategyOutcome :=
  let trades := trades_of data in
  if (List.length trades =? 0)%nat then Ok NoTradesExecuted
  else
    wf <- pydiv (len (winners trades)) (len trades) ;;
    aw <- mean_or_zero (winners trades) ;;
    al <- mean_or_zero (losers trades) ;;
    ap <- pydiv (sum_pnl trades) (len trades) ;;
    pf <- profit_factor trades ;;
    Ok (Metrics (mkMetrics (List.length trades) (wf * 100) ap aw al pf
                   (sum_pnl trades))).

(** ** Persisted results: lines, JSON and the three loaders *)

Definition newline : ascii := ascii_of_nat 10.
Definition quote : ascii := ascii_of_nat 34.
Definition backslash : ascii := ascii_of_nat 92.

(** [f.readlines()]: the content cut after every newline.  The content is
    the text as read, after text mode has translated line endings. *)
Fixpoint readlines (content : list ascii) : list (list ascii) :=
  match content with
  | [] => []
  | c :: rest =>
      if Ascii.eqb c newline then [c] :: readlines rest
      else match readlines rest with
           | [] => [[c]]
           | l :: ls => (c :: l) :: ls
           end
  end.

(** [''.join(lines)] *)
Definition join (lines : list (list ascii)) : list ascii := List.concat lines.

(** [line.strip().startswith('[')] *)
Definition starts_array (line : list ascii) : bool :=
  match strip line with
  | c :: _ => Ascii.eqb c "["
  | [] => false
  end.

#[local] Set Warnings "-register-all".

(** Decoded JSON.  An object keeps its members in document order; a
    repeated key keeps its last value, as a Python dict does. *)
Inductive json : Type :=
| JNull
| JBool (b : bool)
| JNum (q : Q)
| JStr (s : string)
| JArr (items : list json)
| JObj (members : list (string * json)).

Fixpoint obj_set (k : string) (v : json) (m : list (string * json))
  : list (string * json) :=
  match m with
  | [] => [(k, v)]
  | (k', v') :: rest =>
      if String.eqb k k' then (k', v) :: rest else (k', v') :: obj_set k v rest
  end.

Definition is_json_ws (c : ascii) : bool :=
  let n := nat_of_ascii c in
  ((n =? 32) || (n =? 9) || (n =? 10) || (n =? 13))%nat.

Fixpoint skip_ws (cs : list ascii) : list ascii :=
  match cs with
  | c :: rest => if is_json_ws c then skip_ws rest else cs
  | [] => []
  end.

(** Drops the literal [lit] from the front of [cs]. *)
Fixpoint eat (lit cs : list ascii) : option (list ascii) :=
  match lit, cs with
  | [], _ => Some cs
  | a :: lit', c :: cs' => if Ascii.eqb a c then eat lit' cs' else None
  | _ :: _, [] => None
  end.

(** The character a one-letter escape stands for. *)
Definition unescape (c : ascii) : option ascii :=
  if Ascii.eqb c quote then Some quote
  else if Ascii.eqb c backslash then Some backslash
  else if Ascii.eqb c "/" then Some "/"%char
  else if Ascii.eqb c "n" then Some newline
  else if Ascii.eqb c "t" then Some (ascii_of_nat 9)
  else if Ascii.eqb c "r" then Some (ascii_of_nat 13)
  else if Ascii.eqb c "b" then Some (ascii_of_nat 8)
  else if Ascii.eqb c "f" then Some (ascii_of_nat 12)
  else None.

(** A string after its opening quote; control characters are refused. *)
Fixpoint string_body (acc cs : list ascii) : option (string * list ascii) :=
  match cs with
  | [] => None
  | c :: rest =>
      if Ascii.eqb c quote then Some (string_of_list_ascii (rev acc), rest)
      else if Ascii.eqb c backslash then
        match rest with
        | e :: rest' =>
            match unescape e with
            | Some c' => string_body (c' :: acc) rest'
            | None => None
            end
        | [] => None
        end
      else if (nat_of_ascii c <? 32)%nat then None
      else string_body (c :: acc) rest
  end.

(** The leading digits of [cs]: their value from [acc], how many, the rest. *)
Fixpoint take_digits (acc : Z) (n : nat) (cs : list ascii)
  : Z * nat * list ascii :=
  match cs with
  | c :: rest =>
      if is_digit c then take_digits (acc * 10 + digit_value c) (S n) rest
      else (acc, n, cs)
  | [] => (acc, n, [])
  end.

(** [m * 10 ^ e] *)
Definition scale10 (m : Z) (e : Z) : Q :=
  if (0 <=? e)%Z then inject_Z (m * 10 ^ e)
  else inject_Z m / inject_Z (10 ^ (- e)).

(** The exponent part, if there is one. *)
Definition exponent (cs : list ascii) : Z * list ascii :=
  match cs with
  | c :: rest =>
      if Ascii.eqb c "e" || Ascii.eqb c "E" then
        let '(neg, rest1) :=
          match rest with
          | s :: r =>
              if Ascii.eqb s "-" then (true, r)
              else if Ascii.eqb s "+" then (false, r)
              else (false, rest)
          | [] => (false, rest)
          end in
        let '(e, n, rest2) := take_digits 0 0 rest1 in
        match n with
        | O => (0%Z, cs)
        | S _ => ((if neg then - e else e)%Z, rest2)
        end
      else (0%Z, cs)
  | [] => (0%Z, [])
  end.

(** A number: [-? int frac? exp?], with no leading zero in [int]. *)
Definition number (cs : list ascii) : option (Q * list ascii) :=
  let '(neg, cs1) :=
    match cs with
    | c :: rest => if Ascii.eqb c "-" then (true, rest) else (false, cs)
    | [] => (false, cs)
    end in
  let int_part :=
    match cs1 with
    | c :: rest =>
        if Ascii.eqb c "0" then Some (0%Z, rest)
        else if is_digit c then
          let '(v, _, r) := take_digits 0 0 cs1 in Some (v, r)
        else None
    | [] => None
    end in
  match int_part with
  | None => None
  | Some (i, cs2) =>
      let '(m, k, cs3) :=
        match cs2 with
        | c :: rest =>
            if Ascii.eqb c "." then
              let '(v, n, r) := take_digits i 0 rest in
              match n with
              | O => (i, O, cs2)
              | S _ => (v, n, r)
              end
            else (i, O, cs2)
        | [] => (i, O, cs2)
        end in
      let '(e, cs4) := exponent cs3 in
      let q := scale10 m (e - Z.of_nat k) in
      Some (if neg then - q else q, cs4)
  end.

(** The recursive part of the decoder, bounded by [fuel]. *)
Fixpoint parse_value (fuel : nat) (cs : list ascii) {struct fuel}
  : option (json * list ascii) :=
  match fuel with
  | O => None
  | S f =>
      match skip_ws cs with
      | [] => None
      | c :: rest =>
          if Ascii.eqb c "[" then
            match skip_ws rest with
            | c2 :: rest2 =>
                if Ascii.eqb c2 "]" then Some (JArr [], rest2)
                else parse_items f [] rest
            | [] => None
            end
          else if Ascii.eqb c "{" then
            match skip_ws rest with
            | c2 :: rest2 =>
                if Ascii.eqb c2 "}" then Some (JObj [], rest2)
                else parse_members f [] rest
            | [] => None
            end
          else if Ascii.eqb c quote then
            match string_body [] rest with
            | Some (s, r) => Some (JStr s, r)
            | None => None
            end
          else if Ascii.eqb c "n" then
            option_map (fun r => (JNull, r)) (eat (chars "ull") rest)
          else if Ascii.eqb c "t" then
            option_map (fun r => (JBool true, r)) (eat (chars "rue") rest)
          else if Ascii.eqb c "f" then
            option_map (fun r => (JBool false, r)) (eat (chars "alse") rest)
          else
            match number (c :: rest) with
            | Some (q, r) => Some (JNum q, r)
            | None => None
            end
      end
  end

with parse_items (fuel : nat) (acc : list json) (cs : list ascii)
  {struct fuel} : option (json * list ascii) :=
  match fuel with
  | O => None
  | S f =>
      match parse_value f cs with
      | Some (v, r) =>
          match skip_ws r with
          | c :: r' =>
              if Ascii.eqb c "," then parse_items f (v :: acc) r'
              else if Ascii.eqb c "]" then Some (JArr (rev (v :: acc)), r')
              else None
          | [] => None
          end
      | None => None
      end
  end

with parse_members (fuel : nat) (acc : list (string * json))
  (cs : list ascii) {struct fuel} : option (json * list ascii) :=
  match fuel with
  | O => None
  | S f =>
      match skip_ws cs with
      | c :: rest =>
          if Ascii.eqb c quote then
            match string_body [] rest with
            | Some (k, r) =>
                match skip_ws r with
                | c2 :: r2 =>
                    if Ascii.eqb c2 ":" then
                      match parse_value f r2 with
                      | Some (v, r3) =>
                          match skip_ws r3 with
                          | c3 :: r4 =>
                              if Ascii.eqb c3 "," then
                                parse_members f (obj_set k v acc) r4
                              else if Ascii.eqb c3 "}" then
                                Some (JObj (obj_set k v acc), r4)
                              else None
                          | [] => None
                          end
                      | None => None
                      end
                    else None
                | [] => None
                end
            | None => None
            end
          else None
      | [] => None
      end
  end.

(** [json.loads(text)]: one value, then nothing but whitespace.  The model
    covers ASCII documents without [\u] escapes and without the
    [NaN]/[Infinity] extensions, and the decoder's own error only: the
    interpreter's limits (RecursionError on very deep nesting, ValueError
    on an integer of several thousand digits) are not modelled. *)
Definition json_loads (text : list ascii) : result json :=
  match parse_value (S (List.length text)) text with
  | Some (v, rest) =>
      match skip_ws rest with
      | [] => Ok v
      | _ :: _ => Raise JSONDecodeError
      end
  | None => Raise JSONDecodeError
  end.

(** analyze-orb.py, analyze-orb-fixed.py, analyze-short-results.py:
    [data = json.loads(''.join(lines[1:]))] *)
Definition load_orb (content : list ascii) : result json :=
  let lines := readlines content in
  json_loads (join (skipn 1 lines)).

(** The index analyze-orb-validated.py searches for: the first line that
    starts an array, [0] when there is none. *)
Fixpoint find_json_start (i : nat) (lines : list (list ascii)) : nat :=
  match lines with
  | [] => 0%nat
  | line :: rest =>
      if starts_array line then i else find_json_start (S i) rest
  end.

(** analyze-orb-validated.py:
    [data = json.loads(''.join(lines[json_start:]))] *)
Definition load_validated (content : list ascii) : result json :=
  let lines := readlines content in
  let json_start := find_json_start 0 lines in
  json_loads (join (skipn json_start lines)).

(** compare-all-strategies.py: the first line is skipped unless it starts
    the array; [lines[0]] raises on an empty file. *)
Definition load_compare (content : list ascii) : result json :=
  let lines := readlines content in
  match lines with
  | [] => Raise IndexError
  | first :: _ =>
      if starts_array first then json_loads (join lines)
      else json_loads (join (skipn 1 lines))
  end.

(** ** The rest of the scripts *)

(** *** analyze-qqq.py from the fetched values on *)

Record QqqReport : Set := mkQqq {
  qqq_gap : Q;
  qqq_meets : bool;
  qqq_rows : list (Q * Relation)
}.

(** [first_open = bars[0][1]], the gap and its threshold test, then the
    VWAP table over the fetched bars. *)
Definition analyze_qqq (prev_close : Q) (bars : list Bar)
  : result QqqReport :=
  match bars with
  | [] => Raise IndexError
  | first :: _ =>
      g <- gap_pct prev_close (open first) ;;
      rows <- vwap_rows vwap_init bars ;;
      Ok (mkQqq g (meets_threshold g) rows)
  end.

(** debug-mpwr.py: the manual table over [result['sampleBars'][:5]]. *)
Definition manual_vwap (sampleBars : list Bar)
  : result (list (Q * Relation)) :=
  vwap_rows vwap_init (firstn 5 sampleBars).

(** *** The top-five lists *)

(** [sorted(l, key=key)]: stable, smaller keys first. *)
Fixpoint insert_by_key (key : Trade -> Q) (x : Trade) (l : list Trade)
  : list Trade :=
  match l with
  | [] => [x]
  | y :: rest =>
      if Qle_bool (key x) (key y) then x :: l
      else y :: insert_by_key key x rest
  end.

Definition sorted_by_key (key : Trade -> Q) (l : list Trade) : list Trade :=
  fold_right (insert_by_key key) [] l.

(** [top_winners = sorted(winners, key=lambda x: -x['pnlPercent'])[:5]] *)
Definition top_winners (trades : list Trade) : list Trade :=
  firstn 5 (sorted_by_key (fun x => - pnl x) (winners trades)).

(** [top_losers = sorted(losers, key=lambda x: x['pnlPercent'])[:5]] *)
Definition top_losers (trades : list Trade) : list Trade :=
  firstn 5 (sorted_by_key pnl (losers trades)).

(** *** The MU sample trade *)





(** *** get-sp500-tickers.py *)

(** [t.replace('.', '-')] *)
Definition clean_ticker (t : list ascii) : list ascii :=
  map (fun c => if Ascii.eqb c "." then "-"%char else c) t.

(** [tickers = [t.replace('.', '-') for t in tickers]] *)
Definition clean_tickers (tickers : list (list ascii)) : list (list ascii) :=
  map clean_ticker tickers.

(** ** Auxiliary notions used by the statements *)

(** Sum of the magnitudes of the trades' results. *)
Definition sum_abs (l : list Trade) : Q := sum (map (fun t => Qabs (pnl t)) l).

(** Grouping a list of (key, value) pairs, starting from a dict. *)
Definition group_pairs_from (d : dict) (ps : list (string * Q)) : dict :=
  fold_left (fun d kv => dict_append (fst kv) (snd kv) d) ps d.

(** The values filed under [k], in order. *)
Definition members_of (k : string) (ps : list (string * Q)) : list Q :=
  map snd (filter (fun kv => String.eqb k (fst kv)) ps).

(** The trades with exit reason [k]. *)
Definition with_reason (k : string) (trades : list Trade) : list Trade :=
  filter (fun t => String.eqb k (exitReason t)) trades.

(** The trades the timing loop files under [bucket]. *)
Definition in_bucket (bucket : string) (t : Trade) : bool :=
  match timing_bucket t with
  | Ok (Some b) => String.eqb bucket b
  | _ => false
  end.

Definition with_bucket (bucket : string) (trades : list Trade) : list Trade :=
  filter (in_bucket bucket) trades.

(** The row of a group whose list is not empty. *)
Definition row_of (kv : string * list Q) : GroupRow :=
  mkRow (fst kv) (List.length (snd kv)) (sum (snd kv) / len (snd kv)).

(** The (bucket, result) pairs the timing loop files, when no entry time
    makes [int] raise. *)
Definition timing_pairs (trades : list Trade) : list (string * Q) :=
  flat_map (fun t => match timing_bucket t with
                     | Ok (Some b) => [(b, pnl t)]
                     | _ => []
                     end) trades.

Definition nonempty {A : Type} (l : list A) : bool :=
  match l with [] => false | _ :: _ => true end.

(** Decoded records for the concrete checks: four closed trades, one of
    them without entry time, and one record without result. *)
Definition sample_trades : list Trade :=
  [mkTrade "MU" "2025-10-23" (Some "09:35:00") "target" (Some 2) [];
   mkTrade "MU" "2025-10-24" (Some "10:05:00") "stop_loss" (Some (-1)) [];
   mkTrade "NVDA" "2025-10-24" (Some "11:20:00") "end_of_data" None [];
   mkTrade "AMD" "2025-10-24" (Some "08:45:00") "stop_loss" (Some (-3)) [];
   mkTrade "MU" "2025-10-27" None "time_exit" (Some 0) []]%string.

(** A quoted JSON string. *)
Definition quoted (s : string) : list ascii := quote :: chars s ++ [quote].

(** A results file with no preamble: the array starts on the first line
    and spans three lines. *)
Definition sample_document : list ascii :=
  chars "[{" ++ quoted "ticker" ++ chars ": " ++ quoted "MU" ++ chars ", "
    ++ quoted "pnlPercent" ++ chars ": 1.5}," ++ [newline]
  ++ chars " {" ++ quoted "ticker" ++ chars ": " ++ quoted "AMD" ++ chars ", "
    ++ quoted "pnlPercent" ++ chars ": null}" ++ [newline]
  ++ chars "]" ++ [newline].

(** The records of [sample_document]. *)
Definition sample_records : json :=
  JArr [JObj [("ticker", JStr "MU"); ("pnlPercent", JNum (15 # 10))];
        JObj [("ticker", JStr "AMD"); ("pnlPercent", JNull)]]%string.

(** A diagnostic line, as a process writes it ahead of the array. *)
Definition sample_diagnostic : list ascii := chars "Loaded 50 tickers".

(** The file a list of diagnostic lines and a document make. *)
Definition with_preamble (diagnostics : list (list ascii))
  (document : list ascii) : list ascii :=
  fold_right (fun line rest => line ++ newline :: rest) document diagnostics.

(** The first line of a content starts the array. *)
Definition array_on_first_line (content : list ascii) : bool :=
  match readlines content with
  | first :: _ => starts_array first
  | [] => false
  end.

(** The distinct elements of a list, in order of first occurrence. *)
Fixpoint first_occurrences (l : list string) : list string :=
  match l with
  | [] => []
  | x :: rest =>
      x :: filter (fun y => negb (String.eqb x y)) (first_occurrences rest)
  end.

(** Total number of values held by a dict. *)
Definition dict_size (d : dict) : nat :=
  list_sum (map (fun kv => List.length (snd kv)) d).

(** The trade has a non-empty entry time. *)
Definition has_entry_time (t : Trade) : bool :=
  match entryTime t with
  | Some (String _ _) => true
  | _ => false
  end.

(** The character of a decimal digit. *)
Definition digit_char (n : nat) : ascii := ascii_of_nat (48 + n).



(** * Properties *)

(** ** Numbers *)

Lemma Qgt_bool_iff x y : Qgt_bool x y = true <-> y < x.
Proof.
  unfold Qgt_bool. rewrite negb_true_iff.
  destruct (Qle_bool x y) eqn:E.
  - apply Qle_bool_iff in E. split; [discriminate | intro H; lra].
  - split; [intros _ | reflexivity].
    destruct (Qlt_le_dec y x) as [H | H]; [exact H |].
    apply Qle_bool_iff in H. congruence.
Qed.

Lemma Qgt_bool_false_iff x y : Qgt_bool x y = false <-> x <= y.
Proof.
  unfold Qgt_bool. rewrite negb_false_iff. apply Qle_bool_iff.
Qed.

Lemma Qlt_bool_iff x y : Qlt_bool x y = true <-> x < y.
Proof. unfold Qlt_bool. apply Qgt_bool_iff. Qed.

Lemma pydiv_ok x y : ~ y == 0 -> pydiv x y = Ok (x / y).
Proof.
  intro H. unfold pydiv. destruct (Qeq_bool y 0) eqn:E; [| reflexivity].
  apply Qeq_bool_iff in E. contradiction.
Qed.

Lemma pydiv_zero x y : y == 0 -> pydiv x y = Raise ZeroDivisionError.
Proof.
  intro H. unfold pydiv. apply Qeq_bool_iff in H. now rewrite H.
Qed.

Lemma fold_plus_acc (l : list Q) (a : Q) : fold_left Qplus l a == a + sum l.
Proof.
  unfold sum. revert a.
  induction l as [| x l IH]; intro a; simpl.
  - ring.
  - rewrite (IH (a + x)), (IH (0 + x)). ring.
Qed.

Lemma sum_cons (x : Q) (l : list Q) : sum (x :: l) == x + sum l.
Proof.
  unfold sum at 1. simpl. rewrite fold_plus_acc. ring.
Qed.

Lemma sum_app (l1 l2 : list Q) : sum (l1 ++ l2) == sum l1 + sum l2.
Proof.
  induction l1 as [| x l1 IH]; simpl.
  - unfold sum at 2. simpl. ring.
  - rewrite !sum_cons, IH. ring.
Qed.

Lemma len_cons {A : Type} (a : A) (l : list A) : len (a :: l) == 1 + len l.
Proof.
  unfold len. cbn [List.length]. rewrite Nat2Z.inj_succ, <- Z.add_1_l.
  rewrite inject_Z_plus. reflexivity.
Qed.

Lemma len_nonneg {A : Type} (l : list A) : 0 <= len l.
Proof.
  induction l as [| a l IH].
  - apply Qle_refl.
  - rewrite len_cons. lra.
Qed.

Lemma len_pos {A : Type} (l : list A) : l <> [] -> 0 < len l.
Proof.
  destruct l as [| a l]; [congruence | intros _].
  rewrite len_cons. pose proof (len_nonneg l). lra.
Qed.

Lemma len_app {A : Type} (l1 l2 : list A) : len (l1 ++ l2) == len l1 + len l2.
Proof.
  induction l1 as [| a l1 IH]; simpl.
  - unfold len at 2. simpl. ring.
  - rewrite !len_cons, IH. ring.
Qed.

(** ** The running VWAP *)

Lemma vwap_positive (st : VwapState) :
  0 < cumVol st -> vwap st = Ok (cumVolPrice st / cumVol st).
Proof.
  intro H. unfold vwap.
  rewrite (proj2 (Qgt_bool_iff _ _) H).
  apply pydiv_ok. intro E. rewrite E in H. now apply Qlt_irrefl in H.
Qed.

Lemma vwap_not_positive (st : VwapState) :
  cumVol st <= 0 -> vwap st = Ok 0.
Proof.
  intro H. unfold vwap.
  now rewrite (proj2 (Qgt_bool_false_iff _ _) H).
Qed.

Lemma vwap_total (st : VwapState) : exists v, vwap st = Ok v.
Proof.
  destruct (Qlt_le_dec 0 (cumVol st)) as [H | H].
  - eexists. apply vwap_positive, H.
  - eexists. apply vwap_not_positive, H.
Qed.

Lemma vwap_step_eq (st : VwapState) (b : Bar) (v : Q) :
  vwap (observe st b) = Ok v ->
  vwap_step st b = Ok (observe st b, (v, relation (close b) v)).
Proof.
  intro H. unfold vwap_step. cbv zeta. now rewrite H.
Qed.

Lemma vwap_rows_cons (st : VwapState) (b : Bar) (rest : list Bar) (v : Q)
  (rows : list (Q * Relation)) :
  vwap (observe st b) = Ok v ->
  vwap_rows (observe st b) rest = Ok rows ->
  vwap_rows st (b :: rest) = Ok ((v, relation (close b) v) :: rows).
Proof.
  intros Hv Hr. cbn [vwap_rows].
  rewrite (vwap_step_eq _ _ _ Hv). cbn [bind fst snd]. now rewrite Hr.
Qed.

Lemma vwap_rows_total (bars : list Bar) (st : VwapState) :
  exists rows, vwap_rows st bars = Ok rows /\ List.length rows = List.length bars.
Proof.
  revert st. induction bars as [| b rest IH]; intro st.
  - exists []. split; reflexivity.
  - destruct (vwap_total (observe st b)) as [v Hv].
    destruct (IH (observe st b)) as [rows [Hr Hl]].
    exists ((v, relation (close b) v) :: rows). split.
    + now apply vwap_rows_cons.
    + simpl. now rewrite Hl.
Qed.

Lemma observe_all_app (st : VwapState) (l1 l2 : list Bar) :
  observe_all st (l1 ++ l2) = observe_all (observe_all st l1) l2.
Proof. unfold observe_all. apply fold_left_app. Qed.

(** The row printed for a bar in the middle of a sequence is the one
    computed from the sums over the prefix that ends with it. *)
Lemma vwap_rows_prefix (pre : list Bar) (b : Bar) (post : list Bar)
  (st : VwapState) :
  exists rows_pre v rows_post,
    vwap_rows st (pre ++ b :: post)
      = Ok (rows_pre ++ (v, relation (close b) v) :: rows_post)
    /\ List.length rows_pre = List.length pre
    /\ vwap (observe_all st (pre ++ [b])) = Ok v.
Proof.
  revert st. induction pre as [| a pre IH]; intro st.
  - destruct (vwap_total (observe st b)) as [v Hv].
    destruct (vwap_rows_total post (observe st b)) as [rows [Hr _]].
    exists [], v, rows. repeat split.
    + simpl app. now apply vwap_rows_cons.
    + exact Hv.
  - destruct (vwap_total (observe st a)) as [va Hva].
    destruct (IH (observe st a)) as [rp [v [rq [Hr [Hl Hv]]]]].
    exists ((va, relation (close a) va) :: rp), v, rq. repeat split.
    + simpl app. now apply vwap_rows_cons.
    + simpl. now rewrite Hl.
    + exact Hv.
Qed.

(** C2 (as amended).  For every prefix of a bar sequence the loop prints a
    VWAP and a classification for the prefix's last bar: the VWAP is
    cumulative price-volume over cumulative volume when the cumulative
    volume is positive, and is the number 0 otherwise; in both cases the
    bar is classified against that number. *)
Theorem vwap_guard_defaults_to_zero (pre : list Bar) (b : Bar)
  (post : list Bar) :
  let st := observe_all vwap_init (pre ++ [b]) in
  exists rows_pre v rows_post,
    vwap_rows vwap_init (pre ++ b :: post)
      = Ok (rows_pre ++ (v, relation (close b) v) :: rows_post)
    /\ List.length rows_pre = List.length pre
    /\ (0 < cumVol st -> v = cumVolPrice st / cumVol st)
    /\ (cumVol st <= 0 ->
        v = 0 /\ (relation (close b) v = ABOVE <-> 0 < close b)).
Proof.
  intro st.
  destruct (vwap_rows_prefix pre b post vwap_init)
    as [rp [v [rq [Hr [Hl Hv]]]]].
  fold st in Hv.
  exists rp, v, rq. repeat split; try assumption.
  - intro H. rewrite (vwap_positive _ H) in Hv. congruence.
  - rewrite (vwap_not_positive _ H) in Hv. congruence.
  - rewrite (vwap_not_positive _ H) in Hv. injection Hv as <-.
    unfold relation. destruct (Qgt_bool (close b) 0) eqn:E.
    + intros _. now apply Qgt_bool_iff.
    + discriminate.
  - rewrite (vwap_not_positive _ H) in Hv. injection Hv as <-.
    intro Hc. unfold relation. now rewrite (proj2 (Qgt_bool_iff _ _) Hc).
Qed.

(** C2 (as stated) fails: a first bar with volume 0 leaves the cumulative
    volume at 0, yet the loop prints VWAP 0 and classifies the bar ABOVE,
    where the specification's guard gives no classification. *)
Lemma zero_volume_bar_is_classified :
  let b := mkBar "14:30:00" 10 10 10 10 0 in
  cumVol (observe vwap_init b) == 0
  /\ vwap_rows vwap_init [b] = Ok [(0, ABOVE)]
  /\ classification_spec (observe vwap_init b) b = None.
Proof.
  cbv zeta. repeat split.
Qed.

(** C9.  A bar whose close equals the VWAP printed for it is classified
    BELOW; ABOVE needs a close strictly greater than the VWAP. *)
Theorem close_equal_vwap_is_below (st : VwapState) (b : Bar) :
  exists v r,
    vwap_step st b = Ok (observe st b, (v, r))
    /\ (close b == v -> r = BELOW)
    /\ (r = ABOVE <-> v < close b).
Proof.
  destruct (vwap_total (observe st b)) as [v Hv].
  exists v, (relation (close b) v). split; [now apply vwap_step_eq |].
  unfold relation. destruct (Qgt_bool (close b) v) eqn:E.
  - apply Qgt_bool_iff in E. split; [intro H; lra | tauto].
  - apply Qgt_bool_false_iff in E. split; [reflexivity |].
    split; [discriminate | intro H; lra].
Qed.

(** ** The running sums *)

Lemma vwap_rows_app (l1 l2 : list Bar) (st : VwapState) :
  vwap_rows st (l1 ++ l2)
  = (r1 <- vwap_rows st l1 ;;
     r2 <- vwap_rows (observe_all st l1) l2 ;;
     Ok (r1 ++ r2)).
Proof.
  revert st. induction l1 as [| b l1 IH]; intro st.
  - simpl. destruct (vwap_rows st l2); reflexivity.
  - destruct (vwap_total (observe st b)) as [v Hv].
    cbn [app vwap_rows observe_all fold_left].
    rewrite (vwap_step_eq _ _ _ Hv). cbn [bind fst snd].
    rewrite IH. unfold observe_all.
    destruct (vwap_rows (observe st b) l1) as [r1 | e]; cbn [bind];
      [| reflexivity].
    destruct (vwap_rows (fold_left observe l1 (observe st b)) l2);
      reflexivity.
Qed.

Lemma observe_all_sums (bars : list Bar) (st : VwapState) :
  cumVol (observe_all st bars) == cumVol st + sum (map volume bars)
  /\ cumVolPrice (observe_all st bars)
     == cumVolPrice st + sum (map tpv bars).
Proof.
  revert st. induction bars as [| b bars IH]; intro st.
  - unfold sum. simpl. split; ring.
  - cbn [observe_all fold_left map]. destruct (IH (observe st b)) as [Hv Hp].
    unfold observe_all in Hv, Hp. rewrite Hv, Hp, !sum_cons.
    unfold tpv. simpl. split; ring.
Qed.

(** Equal sums give equal VWAPs. *)
Lemma vwap_of_equal_sums (s1 s2 : VwapState) :
  cumVol s1 == cumVol s2 -> cumVolPrice s1 == cumVolPrice s2 ->
  exists v1 v2, vwap s1 = Ok v1 /\ vwap s2 = Ok v2 /\ v1 == v2.
Proof.
  intros Hv Hp.
  destruct (Qlt_le_dec 0 (cumVol s1)) as [H | H].
  - assert (H2 : 0 < cumVol s2) by (rewrite <- Hv; exact H).
    exists (cumVolPrice s1 / cumVol s1), (cumVolPrice s2 / cumVol s2).
    repeat split; try now apply vwap_positive.
    now rewrite Hv, Hp.
  - assert (H2 : cumVol s2 <= 0) by (rewrite <- Hv; exact H).
    exists 0, 0. repeat split; now apply vwap_not_positive.
Qed.

(** ** The gap percentage *)

Lemma gap_pct_ok (p o : Q) :
  ~ p == 0 -> gap_pct p o = Ok ((o - p) / p * 100).
Proof.
  intro Hp. unfold gap_pct. now rewrite (pydiv_ok _ _ Hp).
Qed.

Lemma round_nearest_hundredth (y : Q) :
  0 <= y ->
  Qabs (inject_Z (Qfloor (y * 100 + (1 # 2))) / 100 - y) <= 1 # 200.
Proof.
  intros _.
  pose proof (Qfloor_le (y * 100 + (1 # 2))) as Hlo.
  pose proof (Qlt_floor (y * 100 + (1 # 2))) as Hhi.
  rewrite inject_Z_plus in Hhi.
  set (f := inject_Z (Qfloor (y * 100 + (1 # 2)))) in *.
  change (inject_Z 1) with 1 in Hhi.
  apply Qabs_Qle_condition.
  assert (E : f / 100 == f * (1 # 100)) by (unfold Qdiv; reflexivity).
  rewrite E. split; lra.
Qed.

Lemma sql_round2_close (x : Q) : Qabs (sql_round2 x - x) <= 1 # 200.
Proof.
  unfold sql_round2. destruct (Qle_bool 0 x) eqn:E.
  - apply Qle_bool_iff in E. now apply round_nearest_hundredth.
  - assert (Hneg : 0 <= - x).
    { destruct (Qlt_le_dec x 0) as [H | H]; [lra |].
      apply Qle_bool_iff in H. congruence. }
    pose proof (round_nearest_hundredth (- x) Hneg) as H.
    set (r := inject_Z (Qfloor (- x * 100 + (1 # 2))) / 100) in *.
    assert (Eq : - r - x == - (r - - x)) by ring.
    rewrite Eq, Qabs_opp. exact H.
Qed.

Lemma meets_threshold_iff (g : Q) :
  meets_threshold g = true
  <-> MIN_GAP_PERCENT <= Qabs g /\ gap_direction g = configured_direction.
Proof.
  unfold meets_threshold, MIN_GAP_PERCENT, configured_direction, gap_direction.
  rewrite Qle_bool_iff. split.
  - intro H. split.
    + rewrite Qabs_neg by lra. lra.
    + now rewrite (proj2 (Qlt_bool_iff g 0)) by lra.
  - intros [Ha Hd]. destruct (Qlt_bool g 0) eqn:E; [| discriminate].
    apply Qlt_bool_iff in E. rewrite Qabs_neg in Ha by lra. lra.
Qed.

Lemma meets_threshold_refines_spec (g : Q) :
  meets_threshold g
  = meets_threshold_spec configured_direction MIN_GAP_PERCENT g.
Proof.
  apply eq_true_iff_eq. rewrite meets_threshold_iff.
  unfold meets_threshold_spec. rewrite andb_true_iff, Qle_bool_iff.
  unfold configured_direction.
  destruct (gap_direction g); simpl; intuition congruence.
Qed.

(** C3.  For a previous close [p <> 0] and a session open [o], the script's
    gap is [(o - p) / p * 100]; the two-decimal gap of the data-quality
    query is within half a hundredth of it; the script's threshold test is
    the specified rule at the configuration it hard-codes (direction down,
    minimum 1.0): it holds iff the magnitude reaches the minimum and the
    gap points down.  For [p = 500], [o = 495] the gap is [-1] and the
    threshold is met. *)
Theorem gap_percent_and_threshold (p o : Q) (Hp : ~ p == 0) :
  (exists g,
      gap_pct p o = Ok g
      /\ g == (o - p) / p * 100
      /\ (exists r, sql_gap_pct p o = Some r /\ Qabs (r - g) <= 1 # 200)
      /\ meets_threshold g
         = meets_threshold_spec configured_direction MIN_GAP_PERCENT g
      /\ (meets_threshold g = true
          <-> MIN_GAP_PERCENT <= Qabs g
              /\ gap_direction g = configured_direction))
  /\ (exists g0,
         gap_pct 500 495 = Ok g0 /\ g0 == -1 /\ meets_threshold g0 = true).
Proof.
  split.
  - exists ((o - p) / p * 100). split; [now apply gap_pct_ok |].
    split; [reflexivity |]. split; [| split].
    + unfold sql_gap_pct. destruct (Qeq_bool p 0) eqn:E.
      * apply Qeq_bool_iff in E. contradiction.
      * eexists. split; [reflexivity | apply sql_round2_close].
    + apply meets_threshold_refines_spec.
    + apply meets_threshold_iff.
  - eexists. split; [reflexivity |]. split; reflexivity.
Qed.

(** The scenario of the specification, obtained from the general
    statement. *)
Lemma gap_percent_qqq_scenario :
  ~ 500 == 0
  /\ exists g,
       gap_pct 500 495 = Ok g
       /\ g == -1
       /\ MIN_GAP_PERCENT <= Qabs g
       /\ gap_direction g = configured_direction
       /\ meets_threshold g = true.
Proof.
  assert (Hp : ~ 500 == 0) by discriminate.
  split; [exact Hp |].
  destruct (gap_percent_and_threshold 500 495 Hp)
    as [[g [Hg [Hv [_ [_ Hiff]]]]] _].
  exists g. split; [exact Hg |].
  assert (Hm : g == -1) by (rewrite Hv; reflexivity).
  assert (Ha : MIN_GAP_PERCENT <= Qabs g)
    by (rewrite Hm; unfold MIN_GAP_PERCENT; discriminate).
  assert (Hd : gap_direction g = configured_direction).
  { unfold gap_direction.
    rewrite (proj2 (Qlt_bool_iff g 0)); [reflexivity |].
    rewrite Hm. reflexivity. }
  repeat split; try assumption.
  apply Hiff. split; assumption.
Defined.

(** ** Winners, losers and the profit factor *)


Lemma sum_pnl_cons (t : Trade) (l : list Trade) :
  sum_pnl (t :: l) == pnl t + sum_pnl l.
Proof. unfold sum_pnl. cbn [map]. apply sum_cons. Qed.

Lemma sum_abs_cons (t : Trade) (l : list Trade) :
  sum_abs (t :: l) == Qabs (pnl t) + sum_abs l.
Proof. unfold sum_abs. cbn [map]. apply sum_cons. Qed.

Lemma sum_abs_nonneg (l : list Trade) : 0 <= sum_abs l.
Proof.
  induction l as [| t l IH].
  - apply Qle_refl.
  - rewrite sum_abs_cons. pose proof (Qabs_nonneg (pnl t)). lra.
Qed.

Lemma sum_of_gains (l : list Trade) :
  Forall (fun t => 0 < pnl t) l -> sum_pnl l == sum_abs l.
Proof.
  induction 1 as [| t l Ht _ IH].
  - reflexivity.
  - rewrite sum_pnl_cons, sum_abs_cons, IH, Qabs_pos by lra. reflexivity.
Qed.

Lemma sum_of_losses (l : list Trade) :
  Forall (fun t => pnl t < 0) l -> - sum_pnl l == sum_abs l.
Proof.
  induction 1 as [| t l Ht _ IH].
  - reflexivity.
  - rewrite sum_pnl_cons, sum_abs_cons, <- IH, Qabs_neg by lra. ring.
Qed.

Lemma winners_gain (trades : list Trade) :
  Forall (fun t => 0 < pnl t) (winners trades).
Proof.
  apply Forall_forall. intros t Ht. apply filter_In in Ht as [_ Ht].
  now apply Qgt_bool_iff.
Qed.

Lemma losers_lose (trades : list Trade) :
  Forall (fun t => pnl t < 0) (losers trades).
Proof.
  apply Forall_forall. intros t Ht. apply filter_In in Ht as [_ Ht].
  now apply Qlt_bool_iff.
Qed.

Lemma gross_profit_abs (trades : list Trade) :
  gross_profit trades == sum_abs (winners trades).
Proof. apply sum_of_gains, winners_gain. Qed.

Lemma gross_loss_abs (trades : list Trade) :
  gross_loss trades == sum_abs (losers trades).
Proof.
  unfold gross_loss.
  pose proof (sum_of_losses _ (losers_lose trades)) as H.
  pose proof (sum_abs_nonneg (losers trades)) as Hn.
  rewrite Qabs_neg by lra. exact H.
Qed.

Lemma profit_factor_total (trades : list Trade) :
  exists pf,
    profit_factor trades = Ok pf
    /\ (0 < gross_loss trades ->
        pf = gross_profit trades / gross_loss trades)
    /\ (gross_loss trades <= 0 -> pf = 0).
Proof.
  unfold profit_factor. destruct (Qgt_bool (gross_loss trades) 0) eqn:E.
  - apply Qgt_bool_iff in E. eexists. split; [| split].
    + apply pydiv_ok. intro H. rewrite H in E. now apply Qlt_irrefl in E.
    + reflexivity.
    + intro H. lra.
  - apply Qgt_bool_false_iff in E. exists 0. split; [reflexivity |].
    split; [intro H; lra | reflexivity].
Qed.

(** Every trade is a winner, a loser or a zero, and only one of them. *)
Lemma sign_trichotomy (x : Q) :
  (Qgt_bool x 0 = true /\ Qlt_bool x 0 = false /\ Qeq_bool x 0 = false)
  \/ (Qgt_bool x 0 = false /\ Qlt_bool x 0 = true /\ Qeq_bool x 0 = false)
  \/ (Qgt_bool x 0 = false /\ Qlt_bool x 0 = false /\ Qeq_bool x 0 = true).
Proof.
  destruct (Q_dec x 0) as [[H | H] | H].
  - right. left. repeat split.
    + apply Qgt_bool_false_iff. lra.
    + now apply Qlt_bool_iff.
    + destruct (Qeq_bool x 0) eqn:E; [| reflexivity].
      apply Qeq_bool_iff in E. lra.
  - left. repeat split.
    + now apply Qgt_bool_iff.
    + apply Qgt_bool_false_iff. lra.
    + destruct (Qeq_bool x 0) eqn:E; [| reflexivity].
      apply Qeq_bool_iff in E. lra.
  - right. right. repeat split.
    + apply Qgt_bool_false_iff. lra.
    + apply Qgt_bool_false_iff. lra.
    + now apply Qeq_bool_iff.
Qed.

Lemma sign_partition (trades : list Trade) :
  Permutation trades (winners trades ++ losers trades ++ zero_pnl trades).
Proof.
  unfold winners, losers, zero_pnl.
  induction trades as [| t l IH]; [constructor |].
  cbn [filter].
  destruct (sign_trichotomy (pnl t)) as [[-> [-> ->]] | [[-> [-> ->]] | [-> [-> ->]]]].
  - cbn [app]. now constructor.
  - now apply Permutation_cons_app.
  - rewrite app_assoc. apply Permutation_cons_app. now rewrite <- app_assoc.
Qed.

(** ** Grouping *)

Lemma dict_get_append (k k' : string) (v : Q) (d : dict) :
  dict_get k (dict_append k' v d)
  = if String.eqb k k'
    then Some (match dict_get k d with Some vs => vs | None => [] end ++ [v])
    else dict_get k d.
Proof.
  induction d as [| [key vs] d IH].
  - simpl. destruct (String.eqb k k'); reflexivity.
  - cbn [dict_append dict_get].
    destruct (String.eqb k' key) eqn:E1.
    + apply String.eqb_eq in E1. subst key. cbn [dict_get].
      destruct (String.eqb k k'); reflexivity.
    + cbn [dict_get]. destruct (String.eqb k key) eqn:E2.
      * apply String.eqb_eq in E2. subst key.
        rewrite String.eqb_sym in E1. now rewrite E1.
      * exact IH.
Qed.

Lemma dict_get_group (k : string) (ps : list (string * Q)) (d : dict) :
  dict_get k (group_pairs_from d ps)
  = match members_of k ps with
    | [] => dict_get k d
    | m => Some (match dict_get k d with Some vs => vs | None => [] end ++ m)
    end.
Proof.
  revert d. induction ps as [| [k' v] ps IH]; intro d.
  - reflexivity.
  - cbn [group_pairs_from fold_left fst snd].
    fold (group_pairs_from (dict_append k' v d) ps).
    rewrite IH, dict_get_append. unfold members_of. cbn [filter fst].
    destruct (String.eqb k k'); cbn [map snd].
    + destruct (map snd (filter (fun kv => String.eqb k (fst kv)) ps));
        [reflexivity |].
      now rewrite <- app_assoc.
    + reflexivity.
Qed.

Lemma dict_append_keys (k : string) (v : Q) (d : dict) :
  (In k (map fst d) -> map fst (dict_append k v d) = map fst d)
  /\ (~ In k (map fst d) -> map fst (dict_append k v d) = map fst d ++ [k]).
Proof.
  induction d as [| [key vs] d [IH1 IH2]].
  - split; [intros [] | reflexivity].
  - cbn [dict_append map fst]. destruct (String.eqb k key) eqn:E.
    + apply String.eqb_eq in E. subst key. split; [reflexivity |].
      intro H. exfalso. apply H. now left.
    + apply String.eqb_neq in E. cbn [map fst]. split.
      * intros [H | H]; [congruence |]. now rewrite IH1.
      * intro H. rewrite IH2; [reflexivity |]. intro. apply H. now right.
Qed.

Lemma dict_append_NoDup (k : string) (v : Q) (d : dict) :
  NoDup (map fst d) -> NoDup (map fst (dict_append k v d)).
Proof.
  intro H. destruct (dict_append_keys k v d) as [H1 H2].
  destruct (in_dec string_dec k (map fst d)) as [Hin | Hin].
  - now rewrite H1.
  - rewrite H2 by assumption.
    apply NoDup_rev in H. rewrite <- (rev_involutive (map fst d ++ [k])).
    apply NoDup_rev. rewrite rev_app_distr. cbn [rev app].
    constructor; [| exact H]. now rewrite <- in_rev.
Qed.

Lemma group_pairs_NoDup (ps : list (string * Q)) (d : dict) :
  NoDup (map fst d) -> NoDup (map fst (group_pairs_from d ps)).
Proof.
  revert d. induction ps as [| kv ps IH]; intros d H; [exact H |].
  apply IH, dict_append_NoDup, H.
Qed.

Lemma dict_get_In (d : dict) (k : string) (vs : list Q) :
  NoDup (map fst d) -> (In (k, vs) d <-> dict_get k d = Some vs).
Proof.
  induction d as [| [key ws] d IH]; intro Hn.
  - split; [intros [] | discriminate].
  - cbn [map fst] in Hn. inversion Hn as [| ? ? Hnot Hn']; subst.
    cbn [dict_get]. destruct (String.eqb k key) eqn:E.
    + apply String.eqb_eq in E. subst key. split.
      * intros [H | H]; [congruence |]. exfalso. apply Hnot.
        now apply (in_map fst) in H.
      * intro H. left. congruence.
    + apply String.eqb_neq in E. rewrite <- (IH Hn'). split.
      * intros [H | H]; [congruence | exact H].
      * intro H. now right.
Qed.

Lemma insert_by_size_perm (x : string * list Q) (l : dict) :
  Permutation (insert_by_size x l) (x :: l).
Proof.
  induction l as [| y l IH]; [reflexivity |].
  cbn [insert_by_size].
  destruct (List.length (snd y) <=? List.length (snd x))%nat; [reflexivity |].
  rewrite IH. apply perm_swap.
Qed.

Lemma sorted_by_size_perm (d : dict) : Permutation (sorted_by_size d) d.
Proof.
  induction d as [| x d IH]; [reflexivity |].
  cbn [sorted_by_size fold_right]. fold (sorted_by_size d).
  rewrite insert_by_size_perm. now constructor.
Qed.

Lemma for_each_ok {A B : Type} (f : A -> result B) (g : A -> B)
  (l : list A) :
  (forall a, In a l -> f a = Ok (g a)) -> for_each f l = Ok (map g l).
Proof.
  induction l as [| a l IH]; intro H; [reflexivity |].
  cbn [for_each map]. rewrite (H a) by now left. cbn [bind].
  rewrite IH; [reflexivity |]. intros b Hb. apply H. now right.
Qed.

Lemma by_reason_pairs (trades : list Trade) :
  by_reason trades
  = group_pairs_from [] (map (fun t => (exitReason t, pnl t)) trades).
Proof.
  unfold by_reason, group_pairs_from. generalize (@nil (string * list Q)).
  induction trades as [| t l IH]; intro d; [reflexivity |].
  cbn [fold_left map fst snd]. apply IH.
Qed.

Lemma members_of_reason (k : string) (trades : list Trade) :
  members_of k (map (fun t => (exitReason t, pnl t)) trades)
  = map pnl (with_reason k trades).
Proof.
  unfold members_of, with_reason.
  induction trades as [| t l IH]; [reflexivity |].
  cbn [map filter fst]. destruct (String.eqb k (exitReason t));
    cbn [map snd]; now rewrite IH.
Qed.

(** The dict of exit reasons: a reason is a key exactly when a trade has
    it, and its list holds the results of those trades in order. *)
Lemma by_reason_get (k : string) (trades : list Trade) :
  dict_get k (by_reason trades)
  = match with_reason k trades with
    | [] => None
    | m => Some (map pnl m)
    end.
Proof.
  rewrite by_reason_pairs, dict_get_group, members_of_reason.
  destruct (with_reason k trades); reflexivity.
Qed.

Lemma by_reason_NoDup (trades : list Trade) :
  NoDup (map fst (by_reason trades)).
Proof. rewrite by_reason_pairs. apply group_pairs_NoDup. constructor. Qed.

Lemma by_reason_In (k : string) (vs : list Q) (trades : list Trade) :
  In (k, vs) (by_reason trades)
  <-> with_reason k trades <> [] /\ vs = map pnl (with_reason k trades).
Proof.
  rewrite (dict_get_In _ _ _ (by_reason_NoDup trades)), by_reason_get.
  destruct (with_reason k trades) as [| t m].
  - split; [discriminate | intros [H _]; congruence].
  - split.
    + intro H. split; [discriminate | congruence].
    + intros [_ ->]. reflexivity.
Qed.

Lemma len_map {A B : Type} (f : A -> B) (l : list A) : len (map f l) = len l.
Proof. unfold len. now rewrite length_map. Qed.

Lemma len_nonzero {A : Type} (l : list A) : l <> [] -> ~ len l == 0.
Proof.
  intros H E. apply len_pos in H. rewrite E in H. now apply Qlt_irrefl in H.
Qed.

Lemma reason_rows_eq (trades : list Trade) :
  reason_rows trades
  = Ok (map row_of (sorted_by_size (by_reason trades))).
Proof.
  unfold reason_rows. apply for_each_ok. intros [k vs] Hin.
  apply (Permutation_in _ (sorted_by_size_perm _)) in Hin.
  apply by_reason_In in Hin as [Hne ->].
  unfold reason_row, row_of. cbn [fst snd].
  rewrite pydiv_ok; [reflexivity |].
  rewrite len_map. now apply len_nonzero.
Qed.

Lemma mean_or_zero_total (l : list Trade) :
  exists m, mean_or_zero l = Ok m
            /\ (l = [] -> m = 0)
            /\ (l <> [] -> m = sum_pnl l / len l).
Proof.
  destruct l as [| t l].
  - exists 0. split; [reflexivity |]. split; [reflexivity | congruence].
  - eexists. split; [| split].
    + cbn [mean_or_zero]. apply pydiv_ok, len_nonzero. discriminate.
    + discriminate.
    + reflexivity.
Qed.

(** With at least one closed trade, analyze-orb.py computes its report. *)
Lemma analyze_orb_total (data : list Trade) :
  trades_of data <> [] ->
  exists r, analyze_orb data = Ok r
            /\ total_trades r = List.length (trades_of data)
            /\ profit_factor (trades_of data) = Ok (report_profit_factor r)
            /\ reason_rows (trades_of data) = Ok (exit_reasons r)
            /\ winners_pct r
               = len (winners (trades_of data)) / len (trades_of data) * 100
            /\ losers_pct r
               = len (losers (trades_of data)) / len (trades_of data) * 100.
Proof.
  intro Hne. unfold analyze_orb. cbv zeta.
  pose proof (len_nonzero _ Hne) as Hlen.
  rewrite !(pydiv_ok _ _ Hlen). cbn [bind].
  destruct (mean_or_zero_total (winners (trades_of data))) as [aw [-> _]].
  destruct (mean_or_zero_total (losers (trades_of data))) as [al [-> _]].
  destruct (profit_factor_total (trades_of data)) as [pf [Hpf _]].
  rewrite Hpf, reason_rows_eq. cbn [bind].
  eexists. split; [reflexivity |]. cbn [total_trades report_profit_factor
    exit_reasons winners_pct losers_pct].
  repeat split; try reflexivity; assumption.
Qed.

Lemma analyze_orb_empty (data : list Trade) :
  trades_of data = [] -> analyze_orb data = Raise ZeroDivisionError.
Proof.
  intro H. unfold analyze_orb. cbv zeta. rewrite H. reflexivity.
Qed.

(** compare-all-strategies.py never raises in its metrics. *)
Lemma compare_strategy_total (data : list Trade) :
  exists o, compare_strategy data = Ok o
            /\ (trades_of data = [] <-> o = NoTradesExecuted).
Proof.
  unfold compare_strategy. cbv zeta.
  destruct (trades_of data) as [| t l] eqn:E.
  - exists NoTradesExecuted. split; [reflexivity | tauto].
  - cbn [List.length Nat.eqb]. rewrite <- E.
    assert (Hne : trades_of data <> []) by (rewrite E; discriminate).
    rewrite !(pydiv_ok _ _ (len_nonzero _ Hne)). cbn [bind].
    destruct (mean_or_zero_total (winners (trades_of data))) as [aw [-> _]].
    destruct (mean_or_zero_total (losers (trades_of data))) as [al [-> _]].
    destruct (profit_factor_total (trades_of data)) as [pf [-> _]].
    cbn [bind]. eexists. split; [reflexivity |].
    split; [intro H; contradiction | discriminate].
Qed.

(** C1.  With no closed trade, analyze-orb.py (and analyze-orb-validated.py,
    which computes the same values first) raises ZeroDivisionError at the
    winners percentage, while compare-all-strategies.py takes its
    [len(trades) == 0] branch and reports that no trades were executed. *)
Theorem empty_trades_unguarded_division (data : list Trade) :
  trades_of data = [] ->
  analyze_orb data = Raise ZeroDivisionError
  /\ analyze_orb_validated data = Raise ZeroDivisionError
  /\ compare_strategy data = Ok NoTradesExecuted.
Proof.
  intro H. split; [now apply analyze_orb_empty |]. split.
  - unfold analyze_orb_validated. now rewrite analyze_orb_empty.
  - unfold compare_strategy. cbv zeta. now rewrite H.
Qed.

Lemma empty_trades_unguarded_division_witness :
  trades_of [] = []
  /\ analyze_orb [] = Raise ZeroDivisionError
  /\ analyze_orb_validated [] = Raise ZeroDivisionError
  /\ compare_strategy [] = Ok NoTradesExecuted.
Proof.
  split; [reflexivity |].
  apply (empty_trades_unguarded_division []). reflexivity.
Defined.

(** C5.  The profit factor is gross profit over gross loss, both being sums
    of magnitudes over winners and losers; it is 0, with no exception,
    when the gross loss is 0, in particular when no trade loses.  The
    reports carry that value. *)
Theorem profit_factor_spec (trades : list Trade) :
  gross_profit trades == sum_abs (winners trades)
  /\ gross_loss trades == sum_abs (losers trades)
  /\ exists pf,
       profit_factor trades = Ok pf
       /\ (0 < sum_abs (losers trades) ->
           pf == sum_abs (winners trades) / sum_abs (losers trades))
       /\ (sum_abs (losers trades) == 0 -> pf = 0)
       /\ (losers trades = [] -> pf = 0)
       /\ (forall data r, trades = trades_of data ->
             analyze_orb data = Ok r -> report_profit_factor r = pf)
       /\ (forall data m, trades = trades_of data ->
             compare_strategy data = Ok (Metrics m) ->
             m_profit_factor m = pf).
Proof.
  pose proof (gross_profit_abs trades) as Hgp.
  pose proof (gross_loss_abs trades) as Hgl.
  split; [exact Hgp |]. split; [exact Hgl |].
  destruct (profit_factor_total trades) as [pf [Hpf [Hpos Hzero]]].
  exists pf. split; [exact Hpf |]. split; [| split; [| split; [| split]]].
  - intro H. rewrite Hpos by (rewrite Hgl; exact H). now rewrite Hgp, Hgl.
  - intro H. apply Hzero. rewrite Hgl, H. apply Qle_refl.
  - intro H. apply Hzero. rewrite Hgl, H. apply Qle_refl.
  - intros data r -> Hr.
    destruct (trades_of data) as [| t l] eqn:E.
    + rewrite analyze_orb_empty in Hr by exact E. discriminate.
    + rewrite <- E in *.
      destruct (analyze_orb_total data) as [r' [Hr' [_ [Hpf' _]]]];
        [rewrite E; discriminate |].
      congruence.
  - intros data m -> Hm. unfold compare_strategy in Hm. cbv zeta in Hm.
    destruct (List.length (trades_of data) =? 0)%nat; [discriminate |].
    destruct (pydiv _ _) in Hm; [| discriminate].
    destruct (mean_or_zero _) in Hm; [| discriminate].
    destruct (mean_or_zero _) in Hm; [| discriminate].
    destruct (pydiv _ _) in Hm; [| discriminate].
    rewrite Hpf in Hm. cbn [bind] in Hm. injection Hm as <-. reflexivity.
Qed.

Lemma length_as_len {A : Type} (l1 l2 l3 l : list A) :
  (List.length l1 + List.length l2 + List.length l3 = List.length l)%nat ->
  len l1 + len l2 + len l3 == len l.
Proof.
  intro H. unfold len. rewrite <- H, !Nat2Z.inj_add, !inject_Z_plus.
  reflexivity.
Qed.

(** C6.  For a non-empty collection of closed trades, winners, losers and
    zero-result trades split the collection (a trade is in exactly the list
    its sign selects), so the three counts add up to the total and the
    three fractions to 1; the two percentages the scripts print and the
    zero share add up to 100. *)
Theorem winners_losers_zero_partition (trades : list Trade)
  (Hne : trades <> []) :
  Permutation trades (winners trades ++ losers trades ++ zero_pnl trades)
  /\ (forall t, In t trades ->
        (In t (winners trades) <-> 0 < pnl t)
        /\ (In t (losers trades) <-> pnl t < 0)
        /\ (In t (zero_pnl trades) <-> pnl t == 0))
  /\ (List.length (winners trades) + List.length (losers trades)
      + List.length (zero_pnl trades) = List.length trades)%nat
  /\ len (winners trades) / len trades + len (losers trades) / len trades
     + len (zero_pnl trades) / len trades == 1
  /\ exists wf lf,
       pydiv (len (winners trades)) (len trades) = Ok wf
       /\ pydiv (len (losers trades)) (len trades) = Ok lf
       /\ wf * 100 + lf * 100 + len (zero_pnl trades) / len trades * 100
          == 100.
Proof.
  pose proof (sign_partition trades) as Hp.
  assert (Hl : (List.length (winners trades) + List.length (losers trades)
                + List.length (zero_pnl trades) = List.length trades)%nat).
  { apply Permutation_length in Hp. rewrite !length_app in Hp. lia. }
  pose proof (length_as_len _ _ _ _ Hl) as Hq.
  pose proof (len_nonzero _ Hne) as Hz.
  assert (Hfrac : len (winners trades) / len trades
                  + len (losers trades) / len trades
                  + len (zero_pnl trades) / len trades == 1).
  { rewrite <- Hq. field. now rewrite Hq. }
  split; [exact Hp |]. split; [| split; [exact Hl | split; [exact Hfrac |]]].
  - intros t Ht. unfold winners, losers, zero_pnl.
    rewrite !filter_In, Qgt_bool_iff, Qlt_bool_iff, Qeq_bool_iff. tauto.
  - exists (len (winners trades) / len trades),
      (len (losers trades) / len trades).
    split; [now apply pydiv_ok |]. split; [now apply pydiv_ok |].
    rewrite <- !Qmult_plus_distr_l, Hfrac. reflexivity.
Qed.

Lemma winners_losers_zero_partition_witness :
  trades_of sample_trades <> []
  /\ len (winners (trades_of sample_trades)) / len (trades_of sample_trades)
     + len (losers (trades_of sample_trades)) / len (trades_of sample_trades)
     + len (zero_pnl (trades_of sample_trades))
       / len (trades_of sample_trades) == 1.
Proof.
  assert (Hne : trades_of sample_trades <> []) by discriminate.
  split; [exact Hne |].
  exact (proj1 (proj2 (proj2 (proj2
           (winners_losers_zero_partition _ Hne))))).
Defined.

(** ** Entry-time buckets *)

Lemma by_timing_from_pairs (trades : list Trade) (d : dict) :
  (forall t, In t trades -> exists b, timing_bucket t = Ok b) ->
  by_timing_from d trades = Ok (group_pairs_from d (timing_pairs trades)).
Proof.
  revert d. induction trades as [| t l IH]; intros d H; [reflexivity |].
  destruct (H t (or_introl eq_refl)) as [b Hb].
  cbn [by_timing_from timing_pairs flat_map]. rewrite Hb. cbn [bind].
  fold (timing_pairs l). unfold group_pairs_from. rewrite fold_left_app.
  destruct b as [bucket |]; cbn [fold_left fst snd];
    apply IH; intros t' Ht'; apply H; now right.
Qed.

Lemma members_of_bucket (k : string) (trades : list Trade) :
  members_of k (timing_pairs trades) = map pnl (with_bucket k trades).
Proof.
  unfold members_of, with_bucket, timing_pairs.
  induction trades as [| t l IH]; [reflexivity |].
  cbn [flat_map filter]. rewrite filter_app, map_app, IH.
  unfold in_bucket at 2.
  destruct (timing_bucket t) as [[b |] | e]; cbn [filter fst app map];
    try reflexivity.
  destruct (String.eqb k b); reflexivity.
Qed.

Lemma by_timing_get (trades : list Trade) :
  (forall t, In t trades -> exists b, timing_bucket t = Ok b) ->
  exists d,
    by_timing trades = Ok d
    /\ forall k, dict_get k d
                 = match with_bucket k trades with
                   | [] => None
                   | m => Some (map pnl m)
                   end.
Proof.
  intro H. eexists. split; [now apply by_timing_from_pairs |].
  intro k. rewrite dict_get_group, members_of_bucket.
  destruct (with_bucket k trades); reflexivity.
Qed.

Lemma timing_rows_from_spec (trades : list Trade) (d : dict)
  (buckets : list string) :
  (forall k, dict_get k d
             = match with_bucket k trades with
               | [] => None
               | m => Some (map pnl m)
               end) ->
  exists rows,
    timing_rows_from buckets d = Ok rows
    /\ map t_bucket rows
       = filter (fun b => nonempty (with_bucket b trades)) buckets
    /\ forall row, In row rows ->
         let m := with_bucket (t_bucket row) trades in
         m <> []
         /\ t_count row = List.length m
         /\ t_avg row = sum_pnl m / len m
         /\ t_winners_pct row = len (winners m) / len m * 100.
Proof.
  intro Hd. induction buckets as [| b bs [rows [Hr [Hk Hrows]]]].
  - exists []. split; [reflexivity |]. split; [reflexivity |].
    intros row [].
  - cbn [timing_rows_from filter]. rewrite Hd.
    destruct (with_bucket b trades) as [| t m] eqn:E; cbn [nonempty].
    + exists rows. split; [exact Hr |]. split; assumption.
    + rewrite <- E.
      assert (Hne : with_bucket b trades <> []) by (rewrite E; discriminate).
      rewrite len_map, !pydiv_ok by now apply len_nonzero.
      cbn [bind]. rewrite Hr. cbn [bind].
      eexists. split; [reflexivity |]. split.
      * cbn [map t_bucket]. now rewrite Hk.
      * intros row [<- | Hin]; [| now apply Hrows].
        cbn [t_bucket t_count t_avg t_winners_pct].
        split; [exact Hne |]. split; [apply length_map |].
        split; [reflexivity |].
        unfold winners. cbv zeta.
        assert (Hf : forall l, filter (fun p => Qgt_bool p 0) (map pnl l)
                               = map pnl (filter
                                   (fun t => Qgt_bool (pnl t) 0) l)).
        { induction l as [| x l IHl]; [reflexivity |].
          cbn [map filter]. destruct (Qgt_bool (pnl x) 0); cbn [map];
            now rewrite IHl. }
        now rewrite Hf, len_map.
Qed.

Lemma py_int_outcomes (cs : list ascii) :
  (exists z, py_int cs = Ok z) \/ py_int cs = Raise ValueError.
Proof.
  unfold py_int.
  destruct (match int_strip cs with
            | [] => None
            | c :: rest =>
                if Ascii.eqb c "-"
                then option_map Z.opp (digits_value 0 false rest)
                else if Ascii.eqb c "+" then digits_value 0 false rest
                     else digits_value 0 false (int_strip cs)
            end) as [z |].
  - left. now exists z.
  - now right.
Qed.

Lemma timing_bucket_outcomes (t : Trade) :
  (exists b, timing_bucket t = Ok b) \/ timing_bucket t = Raise ValueError.
Proof.
  unfold timing_bucket. destruct (entryTime t) as [[| c s] |].
  - left. now exists None.
  - unfold hour_of.
    destruct (py_int_outcomes (split_first ":" (chars (String c s))))
      as [[z ->] | ->].
    + left. eexists. reflexivity.
    + now right.
  - left. now exists None.
Qed.

Lemma by_timing_from_raises (trades : list Trade) (d : dict) :
  Exists (fun t => timing_bucket t = Raise ValueError) trades ->
  by_timing_from d trades = Raise ValueError.
Proof.
  revert d. induction trades as [| t l IH]; intros d H.
  - inversion H.
  - cbn [by_timing_from].
    destruct (timing_bucket_outcomes t) as [[b Hb] | Hb].
    + rewrite Hb. cbn [bind].
      assert (Hl : Exists (fun t => timing_bucket t = Raise ValueError) l).
      { inversion H as [? ? Ht | ? ? Ht]; subst; [congruence | exact Ht]. }
      destruct b; now apply IH.
    + now rewrite Hb.
Qed.

Lemma reason_rows_spec (trades : list Trade) :
  exists rows,
    reason_rows trades = Ok rows
    /\ NoDup (map row_key rows)
    /\ (forall row, In row rows ->
          let m := with_reason (row_key row) trades in
          m <> []
          /\ row_count row = List.length m
          /\ (1 <= row_count row)%nat
          /\ row_avg row = sum_pnl m / len m)
    /\ (forall k, with_reason k trades <> [] ->
          exists row, In row rows /\ row_key row = k).
Proof.
  exists (map row_of (sorted_by_size (by_reason trades))).
  pose proof (sorted_by_size_perm (by_reason trades)) as Hperm.
  split; [apply reason_rows_eq |]. split; [| split].
  - rewrite map_map. cbn [row_of row_key].
    apply (Permutation_NoDup (l := map fst (by_reason trades))).
    + symmetry. now apply Permutation_map.
    + apply by_reason_NoDup.
  - intros row Hin. apply in_map_iff in Hin as [[k vs] [<- Hin]].
    apply (Permutation_in _ Hperm) in Hin.
    apply by_reason_In in Hin as [Hne ->].
    cbn [row_of row_key row_count row_avg fst snd]. cbv zeta.
    rewrite length_map, len_map.
    split; [exact Hne |]. split; [reflexivity |]. split; [| reflexivity].
    destruct (with_reason k trades); [congruence | simpl; lia].
  - intros k Hne. exists (row_of (k, map pnl (with_reason k trades))).
    split; [| reflexivity]. apply in_map.
    apply (Permutation_in _ (Permutation_sym Hperm)).
    now apply by_reason_In.
Qed.

(** C8 (as amended).  The exit-reason block prints one row per reason that
    at least one trade has, with the number of those trades (at least 1)
    and the mean of their results.  The entry-time block does the same for
    the buckets, in the fixed bucket order and for exactly the buckets
    that received a trade, when no entry time makes [int] raise; when one
    does, the block raises ValueError and prints no row.  Every trade is
    in one of the two cases. *)
Theorem breakdown_rows_are_nonempty_groups (trades : list Trade) :
  (exists rows,
      reason_rows trades = Ok rows
      /\ NoDup (map row_key rows)
      /\ (forall row, In row rows ->
            let m := with_reason (row_key row) trades in
            m <> []
            /\ row_count row = List.length m
            /\ (1 <= row_count row)%nat
            /\ row_avg row = sum_pnl m / len m)
      /\ (forall k, with_reason k trades <> [] ->
            exists row, In row rows /\ row_key row = k))
  /\ ((forall t, In t trades -> exists b, timing_bucket t = Ok b) ->
      exists rows,
        timing_rows trades = Ok rows
        /\ map t_bucket rows
           = filter (fun b => nonempty (with_bucket b trades)) BUCKETS
        /\ forall row, In row rows ->
             let m := with_bucket (t_bucket row) trades in
             m <> []
             /\ t_count row = List.length m
             /\ (1 <= t_count row)%nat
             /\ t_avg row = sum_pnl m / len m)
  /\ ((exists t, In t trades /\ timing_bucket t = Raise ValueError) ->
      timing_rows trades = Raise ValueError)
  /\ (forall t, (exists b, timing_bucket t = Ok b)
                \/ timing_bucket t = Raise ValueError).
Proof.
  split; [apply reason_rows_spec |]. split; [| split].
  - intro Ht. destruct (by_timing_get trades Ht) as [d [Hd Hget]].
    destruct (timing_rows_from_spec trades d BUCKETS Hget)
      as [rows [Hr [Hk Hrows]]].
    exists rows. split; [| split; [exact Hk |]].
    + unfold timing_rows. rewrite Hd. exact Hr.
    + intros row Hin. destruct (Hrows row Hin) as [Hne [Hc [Ha _]]].
      cbv zeta. split; [exact Hne |]. split; [exact Hc |].
      split; [| exact Ha].
      rewrite Hc. destruct (with_bucket (t_bucket row) trades);
        [congruence | simpl; lia].
  - intros [t [Hin Ht]]. unfold timing_rows, by_timing.
    rewrite by_timing_from_raises; [reflexivity |].
    apply Exists_exists. now exists t.
  - apply timing_bucket_outcomes.
Qed.

(** C8 (as stated) fails: with entry times 09:35:00 and n/a the bucket
    "09:30-10:00" has a member, yet the entry-time block raises
    ValueError and reports no row for it. *)
Lemma unreadable_entry_time_drops_timing_rows :
  let trades :=
    [mkTrade "MU" "2025-10-23" (Some "09:35:00"%string) "target" (Some 2) [];
     mkTrade "AMD" "2025-10-23" (Some "n/a"%string) "target" (Some 1) []] in
  trades_of trades = trades
  /\ with_bucket "09:30-10:00" trades <> []
  /\ timing_rows trades = Raise ValueError.
Proof.
  cbv zeta. split; [reflexivity |]. split; [| reflexivity].
  intro H. vm_compute in H. discriminate H.
Qed.

Lemma sample_times_parse :
  forall t, In t (trades_of sample_trades) ->
            exists b, timing_bucket t = Ok b.
Proof.
  intros t Ht. vm_compute in Ht.
  destruct Ht as [<- | [<- | [<- | [<- | []]]]]; eexists; reflexivity.
Defined.

Lemma breakdown_rows_sample :
  exists rows_r rows_t,
    reason_rows (trades_of sample_trades) = Ok rows_r
    /\ map row_key rows_r = ["stop_loss"; "target"; "time_exit"]%string
    /\ map row_count rows_r = [2; 1; 1]%nat
    /\ timing_rows (trades_of sample_trades) = Ok rows_t
    /\ map t_bucket rows_t = ["09:30-10:00"; "10:00-11:00"; "13:00+"]%string
    /\ map t_count rows_t = [1; 1; 1]%nat.
Proof.
  destruct (breakdown_rows_are_nonempty_groups (trades_of sample_trades))
    as [[rows_r [Hr _]] [Ht _]].
  destruct (Ht sample_times_parse) as [rows_t [Hrt _]].
  exists rows_r, rows_t.
  assert (Er : reason_rows (trades_of sample_trades)
               = Ok (map row_of (sorted_by_size
                                   (by_reason (trades_of sample_trades)))))
    by apply reason_rows_eq.
  assert (Et : exists rows, timing_rows (trades_of sample_trades) = Ok rows
                 /\ map t_bucket rows
                    = ["09:30-10:00"; "10:00-11:00"; "13:00+"]%string
                 /\ map t_count rows = [1; 1; 1]%nat)
    by (eexists; split; [reflexivity | split; reflexivity]).
  destruct Et as [rows [Et [Eb Ec]]].
  assert (rows_r = map row_of (sorted_by_size
                                (by_reason (trades_of sample_trades))))
    by congruence.
  assert (rows_t = rows) by congruence. subst rows_r rows_t.
  repeat split; assumption || reflexivity.
Defined.


(** *** What [int] reads *)

















(** ** The loaders *)

Lemma readlines_join (content : list ascii) :
  join (readlines content) = content.
Proof.
  unfold join. induction content as [| c rest IH]; [reflexivity |].
  cbn [readlines]. destruct (Ascii.eqb c newline).
  - cbn [List.concat app]. now rewrite IH.
  - destruct (readlines rest) as [| l ls].
    + cbn in IH. subst rest. reflexivity.
    + cbn [List.concat app] in *. now rewrite IH.
Qed.

Lemma readlines_line (line rest : list ascii) :
  ~ In newline line ->
  readlines (line ++ newline :: rest) = (line ++ [newline]) :: readlines rest.
Proof.
  induction line as [| c line IH]; intro H.
  - cbn [app readlines]. now rewrite Ascii.eqb_refl.
  - cbn [app readlines].
    destruct (Ascii.eqb c newline) eqn:E.
    + apply Ascii.eqb_eq in E. subst c. exfalso. apply H. now left.
    + rewrite IH; [reflexivity |]. intro Hin. apply H. now right.
Qed.

(** The unconditional skip suits a file with exactly one line ahead of the
    array. *)
Lemma load_orb_one_line_preamble (line document : list ascii) :
  ~ In newline line ->
  load_orb (with_preamble [line] document) = json_loads document.
Proof.
  intro H. unfold load_orb, with_preamble. cbn [fold_right].
  rewrite readlines_line by assumption. cbn [skipn].
  now rewrite readlines_join.
Qed.

(** On a file without preamble the unconditional skip hands the decoder
    the content without its first line. *)
Lemma load_orb_no_preamble (document : list ascii) :
  load_orb document = json_loads (join (skipn 1 (readlines document))).
Proof. reflexivity. Qed.

Lemma load_compare_no_preamble (document : list ascii) :
  array_on_first_line document = true ->
  load_compare document = json_loads document.
Proof.
  unfold array_on_first_line, load_compare. cbv zeta.
  pose proof (readlines_join document) as Hj.
  destruct (readlines document) as [| first ls]; [discriminate |].
  intros ->. now rewrite Hj.
Qed.

Lemma load_compare_one_line_preamble (line document : list ascii) :
  ~ In newline line -> starts_array (line ++ [newline]) = false ->
  load_compare (with_preamble [line] document) = json_loads document.
Proof.
  intros H Hs. unfold load_compare, with_preamble. cbn [fold_right].
  rewrite readlines_line by assumption. cbv zeta. rewrite Hs.
  cbn [skipn]. now rewrite readlines_join.
Qed.

Lemma readlines_with_preamble (diagnostics : list (list ascii))
  (document : list ascii) :
  Forall (fun line => ~ In newline line) diagnostics ->
  readlines (with_preamble diagnostics document)
  = map (fun line => line ++ [newline]) diagnostics ++ readlines document.
Proof.
  induction 1 as [| line ds Hn _ IH]; [reflexivity |].
  cbn [with_preamble fold_right map app]. fold (with_preamble ds document).
  rewrite readlines_line by assumption. now rewrite IH.
Qed.

Lemma find_json_start_app (pre rest : list (list ascii)) (i : nat) :
  Forall (fun l => starts_array l = false) pre ->
  match rest with
  | first :: _ => starts_array first = true
  | [] => False
  end ->
  find_json_start i (pre ++ rest) = (i + List.length pre)%nat.
Proof.
  intros Hpre Hrest. revert i.
  induction Hpre as [| l pre Hl _ IH]; intro i.
  - destruct rest as [| first ls]; [contradiction |].
    cbn [app find_json_start List.length]. rewrite Hrest. lia.
  - cbn [app find_json_start List.length]. rewrite Hl, IH. lia.
Qed.

(** The scan of analyze-orb-validated.py finds the array behind any number
    of diagnostic lines, none of which starts with a bracket. *)
Lemma load_validated_preamble (diagnostics : list (list ascii))
  (document : list ascii) :
  Forall (fun line => ~ In newline line) diagnostics ->
  Forall (fun line => starts_array (line ++ [newline]) = false)
         diagnostics ->
  array_on_first_line document = true ->
  load_validated (with_preamble diagnostics document) = json_loads document.
Proof.
  intros Hn Hs Ha. unfold load_validated. cbv zeta.
  rewrite readlines_with_preamble by assumption.
  rewrite find_json_start_app.
  - cbn [Nat.add].
    rewrite skipn_app, skipn_all, Nat.sub_diag. cbn [app skipn].
    now rewrite readlines_join.
  - apply Forall_map. exact Hs.
  - unfold array_on_first_line in Ha.
    destruct (readlines document); [discriminate | exact Ha].
Qed.

(** C4.  On a results file whose array starts on the first line,
    analyze-orb.py's unconditional [lines[1:]] drops the line that opens
    the array and the decoder raises, where the loaders of
    compare-all-strategies.py and analyze-orb-validated.py return every
    record; with one diagnostic line ahead of the array analyze-orb.py
    returns them too. *)
Theorem unconditional_skip_drops_array_start :
  array_on_first_line sample_document = true
  /\ json_loads sample_document = Ok sample_records
  /\ load_orb sample_document = Raise JSONDecodeError
  /\ load_orb (chars "[]") = Raise JSONDecodeError
  /\ load_compare sample_document = Ok sample_records
  /\ load_validated sample_document = Ok sample_records
  /\ load_orb (with_preamble [sample_diagnostic] sample_document)
     = Ok sample_records.
Proof.
  assert (Hj : json_loads sample_document = Ok sample_records)
    by (vm_compute; reflexivity).
  assert (Ha : array_on_first_line sample_document = true)
    by (vm_compute; reflexivity).
  split; [exact Ha |]. split; [exact Hj |].
  split; [vm_compute; reflexivity |]. split; [vm_compute; reflexivity |].
  split; [now rewrite load_compare_no_preamble |]. split.
  - rewrite <- Hj.
    apply (load_validated_preamble [] sample_document); [constructor .. |].
    exact Ha.
  - rewrite <- Hj. apply load_orb_one_line_preamble.
    vm_compute. intuition discriminate.
Qed.

(** Two diagnostic lines: the scan copes, the one-line skip does not. *)
Example two_line_preamble :
  load_validated
    (with_preamble [sample_diagnostic; sample_diagnostic] sample_document)
  = Ok sample_records
  /\ load_compare
       (with_preamble [sample_diagnostic; sample_diagnostic] sample_document)
     = Raise JSONDecodeError.
Proof. split; vm_compute; reflexivity. Qed.

(** A diagnostic line that itself starts with a bracket stops the scan. *)
Example bracketed_diagnostic :
  load_validated (with_preamble [chars "[warn] slow query"] sample_document)
  = Raise JSONDecodeError.
Proof. vm_compute. reflexivity. Qed.

(** One winner and no loser: the profit factor is 0. *)
Example profit_factor_no_losses :
  profit_factor
    [mkTrade "MU" "2025-10-23" (Some "09:35:00"%string) "target" (Some 2) []]
  = Ok 0.
Proof. reflexivity. Qed.

(** The sample report of analyze-orb.py. *)
Example analyze_orb_sample :
  exists r, analyze_orb sample_trades = Ok r
            /\ total_trades r = 4%nat
            /\ winners_pct r == 25
            /\ losers_pct r == 50
            /\ report_profit_factor r == 1 # 2
            /\ map row_key (exit_reasons r)
               = ["stop_loss"; "target"; "time_exit"]%string.
Proof.
  eexists. split; [vm_compute; reflexivity |]. repeat split.
Qed.

(** The rows of a two-bar sequence and of its reversal. *)
Example two_bar_rows :
  exists v1 v2 w1 w2,
    vwap_rows vwap_init
      [mkBar "14:30:00" 10 10 10 10 1; mkBar "14:35:00" 20 20 20 20 1]
    = Ok [(v1, BELOW); (v2, ABOVE)]
    /\ vwap_rows vwap_init
         [mkBar "14:35:00" 20 20 20 20 1; mkBar "14:30:00" 10 10 10 10 1]
       = Ok [(w1, BELOW); (w2, BELOW)]
    /\ v1 == 10 /\ v2 == 15 /\ w1 == 20 /\ w2 == 15.
Proof.
  do 4 eexists. split; [vm_compute; reflexivity |].
  split; [vm_compute; reflexivity |]. repeat split.
Qed.

(** * Further properties of the scripts *)

(** ** The VWAP table *)

(** X2.  A bar with volume 0 leaves the VWAP where it was. *)
Theorem zero_volume_bar_keeps_vwap (st : VwapState) (b : Bar) :
  volume b == 0 ->
  exists v v', vwap st = Ok v /\ vwap (observe st b) = Ok v' /\ v == v'.
Proof.
  intro H. apply vwap_of_equal_sums; cbn [observe cumVol cumVolPrice];
    rewrite H; ring.
Qed.

Lemma zero_volume_bar_keeps_vwap_witness :
  exists v v',
    vwap (mkVwap 100 1000) = Ok v
    /\ vwap (observe (mkVwap 100 1000) (mkBar "14:40:00" 12 12 12 12 0))
       = Ok v'
    /\ v == v'.
Proof.
  apply (zero_volume_bar_keeps_vwap (mkVwap 100 1000)
           (mkBar "14:40:00" 12 12 12 12 0)).
  reflexivity.
Defined.

Lemma sum_nonneg (l : list Q) : Forall (fun x => 0 <= x) l -> 0 <= sum l.
Proof.
  induction 1 as [| x l Hx _ IH]; [apply Qle_refl |].
  rewrite sum_cons. lra.
Qed.

Lemma sum_positive_iff (l : list Q) :
  Forall (fun x => 0 <= x) l -> (0 < sum l <-> Exists (fun x => 0 < x) l).
Proof.
  induction 1 as [| x l Hx Hl IH].
  - split; [intro H; now apply Qlt_irrefl in H | intro H; inversion H].
  - rewrite sum_cons. pose proof (sum_nonneg l Hl) as Hs. split.
    + intro H. destruct (Qlt_le_dec 0 x) as [Hp | Hp].
      * now left.
      * right. apply IH. lra.
    + intro H. inversion H as [? ? Hp | ? ? Hp]; subst.
      * lra.
      * apply IH in Hp. lra.
Qed.

(** X3.  With non-negative volumes the fallback VWAP 0 is used exactly
    while no bar so far has traded: once a bar with positive volume has
    been seen, every later VWAP is the ratio of the running sums. *)
Theorem vwap_fallback_only_before_first_volume (bars : list Bar) :
  Forall (fun b => 0 <= volume b) bars ->
  let st := observe_all vwap_init bars in
  (Exists (fun b => 0 < volume b) bars ->
   vwap st = Ok (cumVolPrice st / cumVol st))
  /\ (~ Exists (fun b => 0 < volume b) bars -> vwap st = Ok 0).
Proof.
  intros Hn st.
  destruct (observe_all_sums bars vwap_init) as [Hv _]. fold st in Hv.
  cbn [vwap_init cumVol] in Hv. rewrite Qplus_0_l in Hv.
  assert (Hq : Forall (fun x => 0 <= x) (map volume bars))
    by (apply Forall_map; exact Hn).
  pose proof (sum_positive_iff _ Hq) as Hiff.
  rewrite Exists_map in Hiff. split.
  - intro He. apply vwap_positive. rewrite Hv. now apply Hiff.
  - intro He. apply vwap_not_positive. rewrite Hv.
    destruct (Qlt_le_dec 0 (sum (map volume bars))) as [Hp | Hp];
      [| exact Hp].
    exfalso. apply He. now apply Hiff.
Qed.

Lemma vwap_fallback_only_before_first_volume_witness :
  vwap (observe_all vwap_init
          [mkBar "14:30:00" 10 10 10 10 0; mkBar "14:35:00" 11 11 11 11 0])
  = Ok 0.
Proof.
  apply (vwap_fallback_only_before_first_volume
           [mkBar "14:30:00" 10 10 10 10 0; mkBar "14:35:00" 11 11 11 11 0]).
  - repeat constructor; cbn; discriminate.
  - intro H. inversion H as [? ? Hp | ? ? Hp]; subst;
      [discriminate Hp |].
    inversion Hp as [? ? Hq | ? ? Hq]; subst; [discriminate Hq |].
    inversion Hq.
Defined.

Lemma vwap_rows_firstn (n : nat) (bars : list Bar) (st : VwapState)
  (rows : list (Q * Relation)) :
  vwap_rows st bars = Ok rows ->
  vwap_rows st (firstn n bars) = Ok (firstn n rows).
Proof.
  revert bars st rows. induction n as [| n IH]; intros bars st rows H.
  - reflexivity.
  - destruct bars as [| b bars].
    + cbn in H. injection H as <-. reflexivity.
    + destruct (vwap_total (observe st b)) as [v Hv].
      destruct (vwap_rows_total bars (observe st b)) as [rest [Hr _]].
      rewrite (vwap_rows_cons _ _ _ _ _ Hv Hr) in H. injection H as <-.
      cbn [firstn]. apply vwap_rows_cons; [exact Hv |]. now apply IH.
Qed.

(** X4.  The manual table of debug-mpwr.py, computed over the first five
    sample bars, is the first five rows of the table computed over all of
    them: cutting the bars short does not change the rows that remain. *)
Theorem manual_vwap_is_table_prefix (sampleBars : list Bar) :
  exists rows,
    vwap_rows vwap_init sampleBars = Ok rows
    /\ manual_vwap sampleBars = Ok (firstn 5 rows)
    /\ List.length (firstn 5 rows) = Nat.min 5 (List.length sampleBars).
Proof.
  destruct (vwap_rows_total sampleBars vwap_init) as [rows [Hr Hl]].
  exists rows. split; [exact Hr |]. split.
  - unfold manual_vwap. now apply vwap_rows_firstn.
  - now rewrite length_firstn, Hl.
Qed.

(** X5.  analyze-qqq.py from the fetched values on: with no bar fetched,
    [bars[0]] raises IndexError; with a bar and a previous close of 0 the
    gap division raises ZeroDivisionError; otherwise the script prints the
    gap of the first bar's open, its threshold test and one VWAP row per
    bar. *)
Theorem analyze_qqq_outcomes (prev_close : Q) (bars : list Bar) :
  (bars = [] -> analyze_qqq prev_close bars = Raise IndexError)
  /\ (bars <> [] -> prev_close == 0 ->
      analyze_qqq prev_close bars = Raise ZeroDivisionError)
  /\ (forall first rest, bars = first :: rest -> ~ prev_close == 0 ->
      exists r,
        analyze_qqq prev_close bars = Ok r
        /\ qqq_gap r = (open first - prev_close) / prev_close * 100
        /\ qqq_meets r = meets_threshold (qqq_gap r)
        /\ vwap_rows vwap_init bars = Ok (qqq_rows r)
        /\ List.length (qqq_rows r) = List.length bars).
Proof.
  split; [intros ->; reflexivity |]. split.
  - intros Hne Hz. destruct bars as [| first rest]; [congruence |].
    unfold analyze_qqq, gap_pct. now rewrite (pydiv_zero _ _ Hz).
  - intros first rest -> Hp.
    destruct (vwap_rows_total (first :: rest) vwap_init) as [rows [Hr Hl]].
    unfold analyze_qqq. rewrite (gap_pct_ok _ _ Hp). cbn [bind].
    rewrite Hr. cbn [bind]. eexists. split; [reflexivity |].
    cbn [qqq_gap qqq_meets qqq_rows]. repeat split; assumption.
Qed.

(** X6.  For a positive previous close the script's threshold test holds
    exactly when the open is at most 99% of the previous close, and the gap
    is negative exactly when the open is below the previous close. *)
Theorem gap_threshold_in_prices (prev_close first_open : Q) :
  0 < prev_close ->
  exists g,
    gap_pct prev_close first_open = Ok g
    /\ (meets_threshold g = true <-> first_open <= (99 # 100) * prev_close)
    /\ (g < 0 <-> first_open < prev_close).
Proof.
  intro Hp.
  assert (Hnz : ~ prev_close == 0)
    by (intro E; rewrite E in Hp; now apply Qlt_irrefl in Hp).
  exists ((first_open - prev_close) / prev_close * 100).
  split; [now apply gap_pct_ok |].
  unfold meets_threshold. rewrite Qle_bool_iff.
  set (d := (first_open - prev_close) / prev_close).
  assert (Hd : d * prev_close == first_open - prev_close)
    by (unfold d; field; exact Hnz).
  split; split; intro H.
  - assert (A : d <= - (1 # 100)) by lra.
    pose proof (Qmult_le_compat_r _ _ prev_close A (Qlt_le_weak _ _ Hp)) as B.
    lra.
  - assert (A : d * prev_close <= - (1 # 100) * prev_close) by lra.
    apply Qmult_lt_0_le_reg_r in A; [lra | exact Hp].
  - assert (A : d < 0) by lra.
    assert (B : d * prev_close < 0 * prev_close)
      by (apply Qmult_lt_compat_r; assumption).
    lra.
  - assert (A : d * prev_close < 0 * prev_close) by lra.
    apply Qmult_lt_r in A; [lra | exact Hp].
Qed.

Lemma gap_threshold_in_prices_witness :
  exists g,
    gap_pct 500 495 = Ok g
    /\ (meets_threshold g = true <-> 495 <= (99 # 100) * 500)
    /\ (g < 0 <-> 495 < 500).
Proof.
  apply (gap_threshold_in_prices 500 495). reflexivity.
Defined.

(** ** Relations between the printed metrics *)

Lemma gross_loss_opp (trades : list Trade) :
  gross_loss trades == - sum_pnl (losers trades).
Proof.
  rewrite gross_loss_abs.
  symmetry. apply sum_of_losses, losers_lose.
Qed.

Lemma sum_abs_positive (l : list Trade) :
  l <> [] -> Forall (fun t => ~ pnl t == 0) l -> 0 < sum_abs l.
Proof.
  intros Hne H. destruct H as [| t l Ht _]; [congruence |].
  rewrite sum_abs_cons. pose proof (sum_abs_nonneg l).
  pose proof (Qabs_nonneg (pnl t)) as Ha.
  destruct (Qeq_dec (Qabs (pnl t)) 0) as [E | E].
  - exfalso. apply Ht.
    destruct (Qlt_le_dec (pnl t) 0) as [Hn | Hn].
    + rewrite Qabs_neg in E by lra. lra.
    + rewrite Qabs_pos in E by lra. exact E.
  - assert (0 < Qabs (pnl t)).
    { destruct (Qlt_le_dec 0 (Qabs (pnl t))) as [Hp | Hp]; [exact Hp |].
      exfalso. apply E. lra. }
    lra.
Qed.

Lemma gross_profit_positive_iff (trades : list Trade) :
  0 < gross_profit trades <-> winners trades <> [].
Proof.
  split.
  - intros H E. unfold gross_profit in H. rewrite E in H.
    now apply Qlt_irrefl in H.
  - intro Hne. rewrite gross_profit_abs. apply sum_abs_positive; [exact Hne |].
    eapply Forall_impl; [| apply winners_gain]. cbv beta. intros t Ht E.
    rewrite E in Ht. now apply Qlt_irrefl in Ht.
Qed.

Lemma gross_loss_positive_iff (trades : list Trade) :
  0 < gross_loss trades <-> losers trades <> [].
Proof.
  split.
  - intros H E. unfold gross_loss in H. rewrite E in H.
    now apply Qlt_irrefl in H.
  - intro Hne. rewrite gross_loss_abs. apply sum_abs_positive; [exact Hne |].
    eapply Forall_impl; [| apply losers_lose]. cbv beta. intros t Ht E.
    rewrite E in Ht. now apply Qlt_irrefl in Ht.
Qed.

(** The report of analyze-orb.py, field by field. *)
Lemma analyze_orb_report (data : list Trade) :
  trades_of data <> [] ->
  let T := trades_of data in
  exists aw al pf rows,
    mean_or_zero (winners T) = Ok aw
    /\ mean_or_zero (losers T) = Ok al
    /\ profit_factor T = Ok pf
    /\ reason_rows T = Ok rows
    /\ analyze_orb data
       = Ok (mkReport (List.length T)
               (List.length (winners T)) (len (winners T) / len T * 100)
               (List.length (losers T)) (len (losers T) / len T * 100)
               aw al (sum_pnl T / len T) (sum_pnl T) pf rows).
Proof.
  intros Hne T. unfold analyze_orb. cbv zeta. fold T.
  pose proof (len_nonzero _ Hne) as Hlen. fold T in Hlen.
  rewrite !(pydiv_ok _ _ Hlen). cbn [bind].
  destruct (mean_or_zero_total (winners T)) as [aw [Haw _]].
  destruct (mean_or_zero_total (losers T)) as [al [Hal _]].
  destruct (profit_factor_total T) as [pf [Hpf _]].
  exists aw, al, pf, (map row_of (sorted_by_size (by_reason T))).
  rewrite Haw, Hal, Hpf, reason_rows_eq. cbn [bind].
  repeat split; reflexivity.
Qed.

(** X9.  The printed average win is never negative and is positive exactly
    when there is a winner; the printed average loss is never positive and
    is negative exactly when there is a loser.  So an average of 0 means
    an empty side, not results that cancel. *)
Theorem average_win_and_loss_signs (trades : list Trade) :
  exists aw al,
    mean_or_zero (winners trades) = Ok aw
    /\ mean_or_zero (losers trades) = Ok al
    /\ 0 <= aw /\ (0 < aw <-> winners trades <> [])
    /\ al <= 0 /\ (al < 0 <-> losers trades <> []).
Proof.
  destruct (mean_or_zero_total (winners trades)) as [aw [Haw [Hwn Hwc]]].
  destruct (mean_or_zero_total (losers trades)) as [al [Hal [Hln Hlc]]].
  exists aw, al. split; [exact Haw |]. split; [exact Hal |].
  assert (Aw : winners trades <> [] -> 0 < aw).
  { intro Hne. rewrite (Hwc Hne).
    apply Qlt_shift_div_l; [now apply len_pos |]. rewrite Qmult_0_l.
    now apply gross_profit_positive_iff. }
  assert (Al : losers trades <> [] -> al < 0).
  { intro Hne. rewrite (Hlc Hne).
    apply Qlt_shift_div_r; [now apply len_pos |]. rewrite Qmult_0_l.
    apply gross_loss_positive_iff in Hne. rewrite gross_loss_opp in Hne.
    lra. }
  assert (Zw : winners trades = [] -> aw = 0) by exact Hwn.
  assert (Zl : losers trades = [] -> al = 0) by exact Hln.
  assert (Dw : winners trades = [] \/ winners trades <> [])
    by (destruct (winners trades); [left; reflexivity | right; discriminate]).
  assert (Dl : losers trades = [] \/ losers trades <> [])
    by (destruct (losers trades); [left; reflexivity | right; discriminate]).
  split; [| split; [| split]].
  - destruct Dw as [E | E]; [rewrite (Zw E); apply Qle_refl |].
    apply Qlt_le_weak, Aw, E.
  - split; [| exact Aw]. intros H E. rewrite (Zw E) in H.
    now apply Qlt_irrefl in H.
  - destruct Dl as [E | E]; [rewrite (Zl E); apply Qle_refl |].
    apply Qlt_le_weak, Al, E.
  - split; [| exact Al]. intros H E. rewrite (Zl E) in H.
    now apply Qlt_irrefl in H.
Qed.

(** X10.  The profit factor is never negative, and it is 0 in two opposite
    situations: when no trade wins and when no trade loses. *)
Theorem profit_factor_zero_cases (trades : list Trade) :
  exists pf,
    profit_factor trades = Ok pf
    /\ 0 <= pf
    /\ (pf == 0 <-> winners trades = [] \/ losers trades = []).
Proof.
  destruct (profit_factor_total trades) as [pf [Hpf [Hpos Hzero]]].
  exists pf. split; [exact Hpf |].
  pose proof (gross_profit_positive_iff trades) as Hw.
  pose proof (gross_loss_positive_iff trades) as Hl.
  pose proof (gross_profit_abs trades) as Egp.
  pose proof (sum_abs_nonneg (winners trades)) as Ngp.
  destruct (Qlt_le_dec 0 (gross_loss trades)) as [Hgl | Hgl].
  - rewrite (Hpos Hgl).
    assert (Hnl : losers trades <> []) by now apply Hl.
    split.
    + apply Qle_shift_div_l; [exact Hgl | lra].
    + split.
      * intro E. left.
        assert (Dw : winners trades = [] \/ winners trades <> [])
          by (destruct (winners trades);
              [left; reflexivity | right; discriminate]).
        destruct Dw as [Ew | Ew]; [exact Ew |].
        exfalso.
        assert (Hgp : 0 < gross_profit trades) by (apply Hw; exact Ew).
        assert (A : 0 < gross_profit trades / gross_loss trades)
          by (apply Qlt_shift_div_l; [exact Hgl | lra]).
        rewrite E in A. now apply Qlt_irrefl in A.
      * intros [E | E]; [| contradiction].
        unfold gross_profit. rewrite E. unfold Qdiv. cbn.
        apply Qmult_0_l.
  - rewrite (Hzero Hgl). split; [apply Qle_refl |].
    split; [| reflexivity]. intros _. right.
    assert (Dl : losers trades = [] \/ losers trades <> [])
      by (destruct (losers trades);
          [left; reflexivity | right; discriminate]).
    destruct Dl as [El | El]; [exact El |].
    exfalso. assert (0 < gross_loss trades) by (apply Hl; exact El).
    lra.
Qed.

(** X11.  On data with at least one closed trade, compare-all-strategies.py
    reports the numbers analyze-orb.py reports: trade count, win rate,
    expectancy, average win and loss, profit factor and total. *)
Theorem compare_agrees_with_analyze_orb (data : list Trade) :
  trades_of data <> [] ->
  exists r m,
    analyze_orb data = Ok r
    /\ compare_strategy data = Ok (Metrics m)
    /\ m_trades m = total_trades r
    /\ m_win_rate m = winners_pct r
    /\ m_expectancy m = avg_pnl r
    /\ m_avg_win m = avg_win r
    /\ m_avg_loss m = avg_loss r
    /\ m_profit_factor m = report_profit_factor r
    /\ m_total_pnl m = total_pnl r.
Proof.
  intro Hne.
  destruct (analyze_orb_report data Hne)
    as [aw [al [pf [rows [Haw [Hal [Hpf [_ Hr]]]]]]]].
  cbv zeta in Haw, Hal, Hpf, Hr.
  assert (Hz : (List.length (trades_of data) =? 0)%nat = false)
    by (destruct (trades_of data); [congruence | reflexivity]).
  eexists. eexists. split; [exact Hr |]. split.
  - unfold compare_strategy. cbv zeta. rewrite Hz.
    rewrite !(pydiv_ok _ _ (len_nonzero _ Hne)). cbn [bind].
    rewrite Haw, Hal, Hpf. cbn [bind]. reflexivity.
  - cbn [m_trades m_win_rate m_expectancy m_avg_win m_avg_loss
           m_profit_factor m_total_pnl total_trades winners_pct avg_pnl
           avg_win avg_loss report_profit_factor total_pnl].
    repeat split.
Qed.

Lemma compare_agrees_with_analyze_orb_witness :
  exists r m,
    analyze_orb sample_trades = Ok r
    /\ compare_strategy sample_trades = Ok (Metrics m)
    /\ m_win_rate m = winners_pct r
    /\ m_profit_factor m = report_profit_factor r.
Proof.
  assert (Hne : trades_of sample_trades <> []) by discriminate.
  destruct (compare_agrees_with_analyze_orb sample_trades Hne)
    as [r [m [Hr [Hm [_ [Hw [_ [_ [_ [Hp _]]]]]]]]]].
  exists r, m. repeat split; assumption.
Defined.

(** ** The order and the size of the breakdowns *)

Lemma dict_append_size (k : string) (v : Q) (d : dict) :
  dict_size (dict_append k v d) = S (dict_size d).
Proof.
  unfold dict_size. induction d as [| [key vs] d IH].
  - reflexivity.
  - cbn [dict_append]. destruct (String.eqb k key); simpl.
    + rewrite length_app. simpl. lia.
    + simpl in IH. rewrite IH. lia.
Qed.

Lemma group_pairs_size (ps : list (string * Q)) (d : dict) :
  dict_size (group_pairs_from d ps) = (dict_size d + List.length ps)%nat.
Proof.
  revert d. induction ps as [| kv ps IH]; intro d.
  - cbn [group_pairs_from fold_left List.length]. lia.
  - cbn [group_pairs_from fold_left]. fold (group_pairs_from
      (dict_append (fst kv) (snd kv) d) ps).
    rewrite IH, dict_append_size. cbn [List.length]. lia.
Qed.

Lemma dict_size_perm (d d' : dict) :
  Permutation d d' -> dict_size d = dict_size d'.
Proof.
  unfold dict_size.
  induction 1 as [| x l l' _ IH | x y l | l l' l'' _ IH1 _ IH2];
    simpl in *; lia.
Qed.

Lemma insert_by_size_sorted (x : string * list Q) (l : dict) :
  StronglySorted
    (fun a b => (List.length (snd b) <= List.length (snd a))%nat) l ->
  StronglySorted
    (fun a b => (List.length (snd b) <= List.length (snd a))%nat)
    (insert_by_size x l).
Proof.
  induction 1 as [| y r Hs IH Hy].
  - repeat constructor.
  - cbn [insert_by_size].
    destruct (Nat.leb_spec (List.length (snd y)) (List.length (snd x)))
      as [Hle | Hgt].
    + constructor; [constructor; assumption |].
      constructor; [exact Hle |].
      eapply Forall_impl; [| exact Hy]. cbv beta. intros z Hz. lia.
    + constructor; [exact IH |].
      apply Forall_forall. intros z Hz.
      apply (Permutation_in _ (insert_by_size_perm x r)) in Hz.
      destruct Hz as [<- | Hz]; [lia |].
      rewrite Forall_forall in Hy. now apply Hy.
Qed.

Lemma sorted_by_size_sorted (d : dict) :
  StronglySorted
    (fun a b => (List.length (snd b) <= List.length (snd a))%nat)
    (sorted_by_size d).
Proof.
  induction d as [| x d IH]; [constructor |].
  cbn [sorted_by_size fold_right]. now apply insert_by_size_sorted.
Qed.

Lemma StronglySorted_map {A B : Type} (R : B -> B -> Prop) (f : A -> B)
  (l : list A) :
  StronglySorted (fun a b => R (f a) (f b)) l -> StronglySorted R (map f l).
Proof.
  induction 1 as [| x l _ IH Hx]; cbn [map]; constructor;
    [exact IH | now apply Forall_map].
Qed.

(** X12.  The exit-reason block accounts for every trade once: the counts
    of its rows add up to the number of trades; and the rows come largest
    group first, the counts never increasing down the list. *)
Theorem reason_rows_counts (trades : list Trade) :
  exists rows,
    reason_rows trades = Ok rows
    /\ list_sum (map row_count rows) = List.length trades
    /\ StronglySorted (fun a b => (row_count b <= row_count a)%nat) rows.
Proof.
  exists (map row_of (sorted_by_size (by_reason trades))).
  split; [apply reason_rows_eq |]. split.
  - rewrite map_map. cbn [row_of row_count].
    change (dict_size (sorted_by_size (by_reason trades))
            = List.length trades).
    rewrite (dict_size_perm _ _ (sorted_by_size_perm _)).
    rewrite by_reason_pairs, group_pairs_size, length_map. reflexivity.
  - apply StronglySorted_map. cbn [row_of row_count].
    apply sorted_by_size_sorted.
Qed.

Lemma filter_twice {A : Type} (p q : A -> bool) (l : list A) :
  filter p (filter q l) = filter (fun x => p x && q x) l.
Proof.
  induction l as [| x l IH]; [reflexivity |].
  cbn [filter]. destruct (q x); cbn [filter].
  - rewrite andb_true_r. destruct (p x); now rewrite IH.
  - now rewrite andb_false_r.
Qed.

Lemma filter_of_map {A B : Type} (f : A -> B) (p : B -> bool) (l : list A) :
  filter p (map f l) = map f (filter (fun x => p (f x)) l).
Proof.
  induction l as [| x l IH]; [reflexivity |].
  cbn [map filter]. destruct (p (f x)); cbn [map]; now rewrite IH.
Qed.

Lemma filter_all {A : Type} (p : A -> bool) (l : list A) :
  (forall x, In x l -> p x = true) -> filter p l = l.
Proof.
  induction l as [| x l IH]; intro H; [reflexivity |].
  cbn [filter]. rewrite (H x) by now left.
  rewrite IH; [reflexivity |]. intros y Hy. apply H. now right.
Qed.

Lemma key_present_iff (k : string) (keys : list string) :
  existsb (String.eqb k) keys = true <-> In k keys.
Proof.
  rewrite existsb_exists. split.
  - intros [y [Hy E]]. apply String.eqb_eq in E. now subst.
  - intro H. exists k. split; [exact H | apply String.eqb_refl].
Qed.

(** Keys enter a dict in order of first occurrence. *)
Lemma group_pairs_keys (ps : list (string * Q)) (d : dict) :
  map fst (group_pairs_from d ps)
  = map fst d
    ++ filter (fun k => negb (existsb (String.eqb k) (map fst d)))
         (first_occurrences (map fst ps)).
Proof.
  revert d. induction ps as [| [k v] ps IH]; intro d.
  - cbn. now rewrite app_nil_r.
  - cbn [group_pairs_from fold_left fst snd].
    fold (group_pairs_from (dict_append k v d) ps).
    rewrite IH. cbn [map fst first_occurrences filter].
    destruct (dict_append_keys k v d) as [Hin Hout].
    destruct (existsb (String.eqb k) (map fst d)) eqn:E; cbn [negb].
    + apply key_present_iff in E. rewrite (Hin E). f_equal.
      rewrite filter_twice. apply filter_ext. intro y.
      destruct (String.eqb k y) eqn:Ey; cbn [negb];
        [| now rewrite andb_true_r].
      apply String.eqb_eq in Ey. subst y.
      rewrite (proj2 (key_present_iff k _) E). reflexivity.
    + assert (Hn : ~ In k (map fst d)).
      { intro H. apply key_present_iff in H. congruence. }
      rewrite (Hout Hn), <- app_assoc. cbn [app]. do 2 f_equal.
      rewrite filter_twice. apply filter_ext. intro y.
      rewrite existsb_app. cbn [existsb]. rewrite orb_false_r, negb_orb.
      now rewrite (String.eqb_sym y k).
Qed.

Lemma filter_size_insert (n : nat) (x : string * list Q) (l : dict) :
  filter (fun kv => (List.length (snd kv) =? n)%nat) (insert_by_size x l)
  = filter (fun kv => (List.length (snd kv) =? n)%nat) (x :: l).
Proof.
  induction l as [| y r IH]; [reflexivity |].
  cbn [insert_by_size].
  destruct (Nat.leb_spec (List.length (snd y)) (List.length (snd x)))
    as [Hle | Hgt]; [reflexivity |].
  cbn [filter] in *. rewrite IH.
  destruct (Nat.eqb_spec (List.length (snd x)) n) as [Ex | Ex];
    destruct (Nat.eqb_spec (List.length (snd y)) n) as [Ey | Ey];
    try reflexivity.
  lia.
Qed.

Lemma filter_size_sorted (n : nat) (d : dict) :
  filter (fun kv => (List.length (snd kv) =? n)%nat) (sorted_by_size d)
  = filter (fun kv => (List.length (snd kv) =? n)%nat) d.
Proof.
  induction d as [| x d IH]; [reflexivity |].
  cbn [sorted_by_size fold_right]. fold (sorted_by_size d).
  rewrite filter_size_insert. cbn [filter]. now rewrite IH.
Qed.

(** X13.  Among the exit reasons with the same number of trades, the rows
    keep the order in which the reasons first occur in the file: the sort
    by size is stable and the dict holds its keys in insertion order. *)
Theorem reason_rows_ties_in_file_order (trades : list Trade) (n : nat) :
  exists rows,
    reason_rows trades = Ok rows
    /\ map row_key (filter (fun r => (row_count r =? n)%nat) rows)
       = filter (fun k => (List.length (with_reason k trades) =? n)%nat)
           (first_occurrences (map exitReason trades)).
Proof.
  exists (map row_of (sorted_by_size (by_reason trades))).
  split; [apply reason_rows_eq |].
  rewrite filter_of_map. cbn [row_of row_count].
  rewrite filter_size_sorted, map_map. cbn [row_of row_key].
  assert (Hk : map fst (by_reason trades)
               = first_occurrences (map exitReason trades)).
  { rewrite by_reason_pairs, group_pairs_keys. cbn [map app existsb negb].
    rewrite map_map. cbn [fst]. apply filter_all. reflexivity. }
  rewrite <- Hk, filter_of_map. f_equal.
  apply filter_ext_in. intros [k vs] Hin.
  apply by_reason_In in Hin as [_ ->]. cbn [fst snd].
  now rewrite length_map.
Qed.

(** ** Exceptions and totals of the entry-time block *)

(** X14.  analyze-orb-validated.py up to the end of its entry-time block
    (line 87), on data with a closed trade: one closed trade whose entry
    time makes [int] raise stops the script with ValueError in the timing
    loop, after the exit-reason block; when every entry time reads, the
    script reaches the end of that block, having computed the report of
    analyze-orb.py and the entry-time rows. *)
Theorem validated_script_outcomes (data : list Trade) :
  trades_of data <> [] ->
  ((exists t, In t (trades_of data) /\ timing_bucket t = Raise ValueError) ->
   analyze_orb_validated data = Raise ValueError)
  /\ ((forall t, In t (trades_of data) -> exists b, timing_bucket t = Ok b) ->
      exists v,
        analyze_orb_validated data = Ok v
        /\ analyze_orb data = Ok (base v)
        /\ timing_rows (trades_of data) = Ok (entry_times v)
        /\ total_signals v = List.length data
        /\ (n_with_errors v <= total_trades (base v)
            <= total_signals v)%nat).
Proof.
  intro Hne.
  destruct (analyze_orb_total data Hne) as [r [Hr [Hn _]]].
  unfold analyze_orb_validated. rewrite Hr. cbn [bind]. split.
  - intros [t [Hin Ht]]. unfold timing_rows, by_timing.
    rewrite by_timing_from_raises; [reflexivity |].
    apply Exists_exists. now exists t.
  - intro Hall.
    destruct (by_timing_get _ Hall) as [d [Hd Hget]].
    destruct (timing_rows_from_spec _ d BUCKETS Hget) as [rows [Hrows _]].
    assert (Ht : timing_rows (trades_of data) = Ok rows)
      by (unfold timing_rows; rewrite Hd; exact Hrows).
    rewrite Ht. cbn [bind]. eexists. split; [reflexivity |].
    cbn [base entry_times total_signals n_with_errors].
    repeat split; try reflexivity.
    + rewrite Hn. unfold with_errors. apply filter_length_le.
    + rewrite Hn. unfold trades_of. apply filter_length_le.
Qed.

Lemma validated_script_outcomes_witness :
  analyze_orb_validated
    [mkTrade "MU" "2025-10-23" (Some "09:35:00"%string) "target" (Some 2) [];
     mkTrade "AMD" "2025-10-23" (Some "n/a"%string) "target" (Some 1) []]
  = Raise ValueError.
Proof.
  apply (validated_script_outcomes
           [mkTrade "MU" "2025-10-23" (Some "09:35:00"%string) "target"
              (Some 2) [];
            mkTrade "AMD" "2025-10-23" (Some "n/a"%string) "target"
              (Some 1) []]).
  - discriminate.
  - exists (mkTrade "AMD" "2025-10-23" (Some "n/a"%string) "target"
              (Some 1) []).
    split; [right; left; reflexivity | reflexivity].
Defined.

Lemma list_sum_skip_empty (trades : list Trade) (buckets : list string) :
  list_sum (map (fun b => List.length (with_bucket b trades))
              (filter (fun b => nonempty (with_bucket b trades)) buckets))
  = list_sum (map (fun b => List.length (with_bucket b trades)) buckets).
Proof.
  induction buckets as [| b bs IH]; [reflexivity |].
  cbn [filter]. destruct (with_bucket b trades) eqn:E; cbn [nonempty].
  - cbn [map list_sum]. rewrite E. cbn [List.length]. exact IH.
  - cbn [map]. rewrite E. simpl. simpl in IH. now rewrite IH.
Qed.

Lemma bucket_counts_one (t : Trade) :
  (exists b, timing_bucket t = Ok b) ->
  list_sum (map (fun b => if in_bucket b t then 1 else 0)%nat BUCKETS)
  = if has_entry_time t then 1%nat else 0%nat.
Proof.
  intros [b Hb]. unfold in_bucket, has_entry_time. rewrite Hb.
  unfold timing_bucket in Hb.
  destruct (entryTime t) as [[| c s] |].
  - injection Hb as <-. reflexivity.
  - destruct (hour_of (String c s)) as [h | e]; [| discriminate].
    cbn [bind] in Hb. injection Hb as <-.
    unfold bucket_of_hour.
    destruct (h =? 9)%Z; [reflexivity |].
    destruct (h =? 10)%Z; [reflexivity |].
    destruct (h =? 11)%Z; [reflexivity |].
    destruct (h =? 12)%Z; reflexivity.
  - injection Hb as <-. reflexivity.
Qed.

Lemma bucket_counts_total (trades : list Trade) :
  (forall t, In t trades -> exists b, timing_bucket t = Ok b) ->
  list_sum (map (fun b => List.length (with_bucket b trades)) BUCKETS)
  = List.length (filter has_entry_time trades).
Proof.
  induction trades as [| t l IH]; intro H; [reflexivity |].
  assert (Hl : forall t', In t' l -> exists b, timing_bucket t' = Ok b)
    by (intros t' Ht'; apply H; now right).
  specialize (IH Hl).
  pose proof (bucket_counts_one t (H t (or_introl eq_refl))) as Hone.
  unfold with_bucket in *. cbn [filter].
  unfold BUCKETS in *. cbn [map list_sum fold_right] in *.
  repeat match goal with
         | |- context [in_bucket ?b t] => destruct (in_bucket b t)
         end;
    destruct (has_entry_time t); cbn [List.length] in *; lia.
Qed.

(** X15.  When every entry time reads, the entry-time block accounts for
    each trade that has a non-empty entry time exactly once: every bucket
    the loop files under is one of the five that are printed, so the
    counts of the rows add up to the number of such trades. *)
Theorem timing_rows_counts (trades : list Trade) :
  (forall t, In t trades -> exists b, timing_bucket t = Ok b) ->
  exists rows,
    timing_rows trades = Ok rows
    /\ list_sum (map t_count rows)
       = List.length (filter has_entry_time trades).
Proof.
  intro Hall.
  destruct (by_timing_get _ Hall) as [d [Hd Hget]].
  destruct (timing_rows_from_spec _ d BUCKETS Hget)
    as [rows [Hrows [Hkeys Hrow]]].
  exists rows. split; [unfold timing_rows; rewrite Hd; exact Hrows |].
  rewrite <- (bucket_counts_total trades Hall).
  rewrite <- list_sum_skip_empty, <- Hkeys, map_map. f_equal.
  apply map_ext_in. intros row Hin.
  now destruct (Hrow row Hin) as [_ [Hc _]].
Qed.

Lemma timing_rows_counts_witness :
  exists rows,
    timing_rows (trades_of sample_trades) = Ok rows
    /\ list_sum (map t_count rows) = 3%nat.
Proof.
  destruct (timing_rows_counts (trades_of sample_trades) sample_times_parse)
    as [rows [Hr Hs]].
  exists rows. split; [exact Hr |]. rewrite Hs. reflexivity.
Defined.

(** X16.  For an entry time that starts with two digits and a colon, the
    hour is the number the two digits spell and the rest of the string
    plays no part: the trade's bucket depends on the hour alone, so 09:00
    is filed under "09:30-10:00" like 09:45. *)
Theorem two_digit_hour (a b : nat) (rest : string) :
  (a < 10)%nat -> (b < 10)%nat ->
  let entry_time :=
    String (digit_char a) (String (digit_char b) (String ":" rest)) in
  hour_of entry_time = Ok (Z.of_nat (10 * a + b))
  /\ forall t, entryTime t = Some entry_time ->
       timing_bucket t = Ok (Some (bucket_of_hour (Z.of_nat (10 * a + b)))).
Proof.
  intros Ha Hb entry_time.
  assert (Hh : hour_of entry_time = Ok (Z.of_nat (10 * a + b))).
  { unfold entry_time.
    do 10 (destruct a as [| a]; [
      do 10 (destruct b as [| b]; [reflexivity |]); exfalso; lia |]).
    exfalso. lia. }
  split; [exact Hh |].
  intros t Ht. unfold timing_bucket. rewrite Ht. unfold entry_time in *.
  now rewrite Hh.
Qed.

Lemma two_digit_hour_witness :
  hour_of "09:00:00" = Ok 9%Z
  /\ forall t, entryTime t = Some "09:00:00"%string ->
       timing_bucket t = Ok (Some "09:30-10:00"%string).
Proof.
  apply (two_digit_hour 0 9 "00:00"); lia.
Defined.

(** ** The top-five lists and the sample trade *)

Lemma insert_by_key_perm (key : Trade -> Q) (x : Trade) (l : list Trade) :
  Permutation (insert_by_key key x l) (x :: l).
Proof.
  induction l as [| y l IH]; [reflexivity |].
  cbn [insert_by_key]. destruct (Qle_bool (key x) (key y)); [reflexivity |].
  rewrite IH. apply perm_swap.
Qed.

Lemma sorted_by_key_perm (key : Trade -> Q) (l : list Trade) :
  Permutation (sorted_by_key key l) l.
Proof.
  induction l as [| x l IH]; [reflexivity |].
  cbn [sorted_by_key fold_right]. fold (sorted_by_key key l).
  rewrite insert_by_key_perm. now constructor.
Qed.

Lemma insert_by_key_sorted (key : Trade -> Q) (x : Trade) (l : list Trade) :
  StronglySorted (fun a b => key a <= key b) l ->
  StronglySorted (fun a b => key a <= key b) (insert_by_key key x l).
Proof.
  induction 1 as [| y r Hs IH Hy].
  - repeat constructor.
  - cbn [insert_by_key]. destruct (Qle_bool (key x) (key y)) eqn:E.
    + apply Qle_bool_iff in E.
      constructor; [constructor; assumption |].
      constructor; [exact E |].
      eapply Forall_impl; [| exact Hy]. cbv beta. intros z Hz. lra.
    + assert (Hlt : key y < key x).
      { destruct (Qlt_le_dec (key y) (key x)) as [H | H]; [exact H |].
        apply Qle_bool_iff in H. congruence. }
      constructor; [exact IH |].
      apply Forall_forall. intros z Hz.
      apply (Permutation_in _ (insert_by_key_perm key x r)) in Hz.
      destruct Hz as [<- | Hz]; [lra |].
      rewrite Forall_forall in Hy. now apply Hy.
Qed.

Lemma sorted_by_key_sorted (key : Trade -> Q) (l : list Trade) :
  StronglySorted (fun a b => key a <= key b) (sorted_by_key key l).
Proof.
  induction l as [| x l IH]; [constructor |].
  cbn [sorted_by_key fold_right]. now apply insert_by_key_sorted.
Qed.

Lemma sorted_split {A : Type} (R : A -> A -> Prop) (l1 l2 : list A) :
  StronglySorted R (l1 ++ l2) ->
  StronglySorted R l1 /\ forall a b, In a l1 -> In b l2 -> R a b.
Proof.
  induction l1 as [| x l1 IH]; intro H.
  - split; [constructor | intros a b []].
  - cbn [app] in H. inversion H as [| ? ? Hs Hx]; subst.
    destruct (IH Hs) as [H1 H2]. split.
    + constructor; [exact H1 |].
      rewrite Forall_forall in *. intros z Hz. apply Hx.
      apply in_or_app. now left.
    + intros a b [<- | Ha] Hb.
      * rewrite Forall_forall in Hx. apply Hx. apply in_or_app. now right.
      * now apply H2.
Qed.

(** The first [n] of a list sorted by a key. *)
Lemma top_of_sorted (key : Trade -> Q) (n : nat) (l : list Trade) :
  let top := firstn n (sorted_by_key key l) in
  List.length top = Nat.min n (List.length l)
  /\ StronglySorted (fun a b => key a <= key b) top
  /\ exists rest,
       Permutation l (top ++ rest)
       /\ forall a b, In a top -> In b rest -> key a <= key b.
Proof.
  intro top. pose proof (sorted_by_key_sorted key l) as Hs.
  pose proof (sorted_by_key_perm key l) as Hp.
  rewrite <- (firstn_skipn n (sorted_by_key key l)) in Hs.
  destruct (sorted_split _ _ _ Hs) as [H1 H2]. split; [| split].
  - unfold top. rewrite length_firstn. now rewrite (Permutation_length Hp).
  - exact H1.
  - exists (skipn n (sorted_by_key key l)). split; [| exact H2].
    unfold top. rewrite firstn_skipn. now symmetry.
Qed.

(** X17.  The "Top 5 Winners" list holds min(5, number of winners) trades,
    all of them winners, best first, and no winner left out did better
    than a listed one; the "Top 5 Losers" list is the mirror image, worst
    first. *)
Theorem top_five_lists (trades : list Trade) :
  (List.length (top_winners trades)
   = Nat.min 5 (List.length (winners trades))
   /\ StronglySorted (fun a b => pnl b <= pnl a) (top_winners trades)
   /\ exists rest,
        Permutation (winners trades) (top_winners trades ++ rest)
        /\ forall a b, In a (top_winners trades) -> In b rest ->
                       pnl b <= pnl a)
  /\ (List.length (top_losers trades)
      = Nat.min 5 (List.length (losers trades))
      /\ StronglySorted (fun a b => pnl a <= pnl b) (top_losers trades)
      /\ exists rest,
           Permutation (losers trades) (top_losers trades ++ rest)
           /\ forall a b, In a (top_losers trades) -> In b rest ->
                          pnl a <= pnl b).
Proof.
  split.
  - destruct (top_of_sorted (fun x => - pnl x) 5 (winners trades))
      as [Hl [Hs [rest [Hp Hr]]]].
    fold (top_winners trades) in Hl, Hs, Hp, Hr.
    split; [exact Hl |]. split.
    + eapply StronglySorted_ind with
        (P := StronglySorted (fun a b => pnl b <= pnl a)) in Hs;
        [exact Hs | constructor |].
      intros a l _ IH Ha. constructor; [exact IH |].
      eapply Forall_impl; [| exact Ha]. cbv beta. intros z Hz. lra.
    + exists rest. split; [exact Hp |]. intros a b Ha Hb.
      specialize (Hr a b Ha Hb). cbv beta in Hr. lra.
  - destruct (top_of_sorted pnl 5 (losers trades))
      as [Hl [Hs [rest [Hp Hr]]]].
    fold (top_losers trades) in Hl, Hs, Hp, Hr.
    split; [exact Hl |]. split; [exact Hs |].
    exists rest. split; assumption.
Qed.




(** ** The loaders side by side *)

(** X19.  Behind diagnostic lines that do not start with a bracket, the
    scan of analyze-orb-validated.py hands the decoder exactly the array
    text, however many lines there are; with exactly one such line the
    unconditional skip of analyze-orb.py and the conditional skip of
    compare-all-strategies.py do the same, so the three loaders agree. *)
Theorem loaders_behind_diagnostics (diagnostics : list (list ascii))
  (document : list ascii) :
  Forall (fun line => ~ In newline line) diagnostics ->
  Forall (fun line => starts_array (line ++ [newline]) = false)
         diagnostics ->
  array_on_first_line document = true ->
  load_validated (with_preamble diagnostics document) = json_loads document
  /\ (List.length diagnostics = 1%nat ->
      load_orb (with_preamble diagnostics document) = json_loads document
      /\ load_compare (with_preamble diagnostics document)
         = json_loads document).
Proof.
  intros Hn Hs Ha. split; [now apply load_validated_preamble |].
  intro Hl. destruct diagnostics as [| line [| ? ?]]; try discriminate.
  inversion Hn as [| ? ? Hn1 _]; subst. inversion Hs as [| ? ? Hs1 _]; subst.
  split.
  - now apply load_orb_one_line_preamble.
  - now apply load_compare_one_line_preamble.
Qed.

Lemma loaders_behind_diagnostics_witness :
  load_validated (with_preamble [sample_diagnostic] sample_document)
  = json_loads sample_document
  /\ (List.length [sample_diagnostic] = 1%nat ->
      load_orb (with_preamble [sample_diagnostic] sample_document)
      = json_loads sample_document
      /\ load_compare (with_preamble [sample_diagnostic] sample_document)
         = json_loads sample_document).
Proof.
  apply (loaders_behind_diagnostics [sample_diagnostic] sample_document).
  - constructor; [| constructor]. vm_compute. intuition discriminate.
  - constructor; [| constructor]. vm_compute. reflexivity.
  - vm_compute. reflexivity.
Defined.

(** ** Ticker symbols *)

(** X22.  Cleaning a ticker list replaces every dot by a dash and nothing
    else: the list and each symbol keep their length, no cleaned symbol
    contains a dot, a symbol without dots is unchanged, and cleaning twice
    is cleaning once. *)
Theorem clean_tickers_spec (tickers : list (list ascii)) :
  List.length (clean_tickers tickers) = List.length tickers
  /\ Forall2 (fun t t' =>
                List.length t' = List.length t
                /\ ~ In "."%char t'
                /\ (~ In "."%char t -> t' = t)
                /\ forall i c, nth_error t i = Some c ->
                     nth_error t' i
                     = Some (if Ascii.eqb c "." then "-"%char else c))
       tickers (clean_tickers tickers)
  /\ clean_tickers (clean_tickers tickers) = clean_tickers tickers.
Proof.
  assert (Hnodot : forall t, ~ In "."%char (clean_ticker t)).
  { intros t H. unfold clean_ticker in H. apply in_map_iff in H.
    destruct H as [c [Hc _]].
    destruct (Ascii.eqb c ".") eqn:E; [discriminate |].
    apply Ascii.eqb_neq in E. congruence. }
  assert (Hsame : forall t, ~ In "."%char t -> clean_ticker t = t).
  { intros t H. unfold clean_ticker. rewrite <- (map_id t) at 2.
    apply map_ext_in. intros c Hc.
    destruct (Ascii.eqb c ".") eqn:E; [| reflexivity].
    apply Ascii.eqb_eq in E. subst c. contradiction. }
  split; [apply length_map |]. split.
  - unfold clean_tickers. induction tickers as [| t l IH]; [constructor |].
    cbn [map]. constructor; [| exact IH].
    split; [apply length_map |]. split; [apply Hnodot |].
    split; [apply Hsame |].
    intros i c Hi. unfold clean_ticker. rewrite nth_error_map, Hi.
    reflexivity.
  - unfold clean_tickers. rewrite map_map. apply map_ext.
    intro t. apply Hsame, Hnodot.
Qed.
